(** * assetman/compilers.py: the asset compilers, embedded and verified

    The module compiles "blocks" of static assets (JS, CSS, LESS, SASS) by
    shelling out to external tools, decides staleness from two manifests, and
    inlines small images into CSS as [data:] URIs.

    The embedding is shallow.  Python dictionaries are [gmap]s, the file
    system, the subprocess layer and the helpers of [assetman.tools] (which
    are imported, not defined, by the module) are the fields of an
    environment [Env], and every method runs in a small state-and-exception
    monad whose state records what was logged and which processes were
    spawned. *)

From Stdlib Require Import ZArith Ascii String List Lia Bool.
From stdpp Require Import base gmap strings list.

Local Open Scope string_scope.
Local Open Scope Z_scope.

(** ** Values, log records, exceptions *)

(** The line feed of ['\n'.join(...)] and of the log formats. *)
Definition nl : string := String (ascii_of_nat 10) EmptyString.

(** The Python values that end up as logging arguments or exception payloads:
    a [str], an [int], a byte count divided by [KB = 1024.0] (a float, kept as
    its numerator), and an asset manager object (shown through its [str()]). *)
Inductive pyval :=
| VStr (s : string)
| VInt (n : Z)
| VKB (bytes : Z)
| VObj (shown : string).

Inductive level := DEBUG | INFO | WARN.

(** [logging.warn(fmt, *args)] keeps the format and its arguments apart. *)
Record log_record := LogRecord {
  lvl : level;
  fmt : string;
  args : list pyval
}.

(** The exceptions of the module, [AssertionError] for its [assert]s,
    [NotImplementedError] for the abstract [do_compile], and [IOError] for
    [open] on a path that is not a readable file. *)
Inductive exn :=
| CompileError (cmd : list string) (err : string)
| ParseError
| DependencyError (src : string) (missing : string)
| AssertionError (payload : list pyval)
| NotImplementedError
| IOError (path : string).

(** ** The environment *)

Inductive node :=
| File (content : string)
| Dir.

(** What [proc.communicate] hands back, with the exit status. *)
Record completed := Completed {
  out : string;
  err : string;
  returncode : Z
}.

(** One match of the [url(...)] pattern of [inline_images]: [group0] is the
    matched text, the other four fields are [match.groups()]. *)
Record rematch := Rematch {
  group0 : string;
  before : string;
  url_prefix : string;
  rel_path : string;
  after : string
}.

(** [re.sub] walks the subject left to right over its non-overlapping
    matches; a subject is thereby cut into literal text and matches. *)
Inductive piece :=
| Lit (s : string)
| Hit (m : rematch).

(** The collaborators of the module.  [assetman.tools] is imported but is not
    among the sources: [make_static_path] is called with the static directory
    and a relative URL from [get_paths] and with the relative path alone from
    [inline_images], the two call shapes are kept apart;
    [get_static_pattern] only serves to build the regular expression handed
    to [re.sub], so the environment gives the resulting decomposition of a
    subject directly, for a given [static_url_prefix]. *)
Class Env := {
  fs : gmap string node;
  popen : list string -> option string -> completed;
  make_static_path : string -> string -> string;
  make_static_path_rel : string -> string;
  make_output_path : string -> string -> string;
  static_url_scan : string -> string -> list piece;
  guess_type : string -> option string
}.

(** ** The monad: state and exceptions *)

(** The observable effects: the log, and the commands spawned with the data
    piped to their standard input, both oldest first. *)
Record world := World {
  logged : list log_record;
  spawned : list (list string * option string)
}.

(** A computation returns or raises, and leaves a world behind either way. *)
Definition M (A : Type) : Type := world -> (exn + A) * world.

Definition ret {A} (a : A) : M A := fun w => (inr a, w).

Definition raise {A} (e : exn) : M A := fun w => (inl e, w).

Definition bind {A B} (m : M A) (k : A -> M B) : M B :=
  fun w =>
    match m w with
    | (inl e, w') => (inl e, w')
    | (inr a, w') => k a w'
    end.

Notation "'let!' x ':=' c 'in' k" := (bind c (fun x => k))
  (at level 10, x name, c at level 100, k at level 200).
Notation "'run!' c 'in' k" := (bind c (fun _ => k))
  (at level 10, c at level 100, k at level 200).

Definition logging (l : level) (f : string) (a : list pyval) : M unit :=
  fun w => (inr tt, World (logged w ++ [LogRecord l f a]) (spawned w)).

(** [subprocess.Popen(cmd, ...)] followed by [proc.communicate(input=stdin)]. *)
Definition communicate `{Env} (cmd : list string) (stdin : option string)
  : M completed :=
  fun w => (inr (popen cmd stdin),
            World (logged w) (spawned w ++ [(cmd, stdin)])).

Fixpoint mapM {A B} (f : A -> M B) (l : list A) : M (list B) :=
  match l with
  | [] => ret []
  | x :: r => let! y := f x in let! ys := mapM f r in ret (y :: ys)
  end.

(** ** The file system, as [os.path] and [open] see it *)

Definition os_path_exists `{Env} (p : string) : bool :=
  match fs !! p with Some _ => true | None => false end.

Definition os_path_isfile `{Env} (p : string) : bool :=
  match fs !! p with Some (File _) => true | _ => false end.

(** [os.stat(path).st_size]; only ever asked of a regular file. *)
Definition st_size `{Env} (p : string) : Z :=
  match fs !! p with
  | Some (File c) => Z.of_nat (String.length c)
  | _ => 0
  end.

(** [open(path).read()] *)
Definition open_read `{Env} (p : string) : M string :=
  match fs !! p with
  | Some (File c) => ret c
  | _ => raise (IOError p)
  end.

(** Truth value of a [str]: nonempty. *)
Definition truthy (s : string) : bool :=
  match s with EmptyString => false | _ => true end.

(** ** run_proc *)

Definition run_proc `{Env} (cmd : list string) (stdin : option string)
  : M string :=
  let! p := communicate cmd stdin in
  if negb (returncode p =? 0) then
    raise (CompileError cmd (err p))
  else
    run! (if truthy (err p) then
            logging WARN ("%s stderr:" +:+ nl +:+ "%s")
                    [VStr (hd "" cmd); VStr (err p)]
          else ret tt) in
    ret (out p).

(** ** Manifests and asset managers *)

(** An entry of [manifest['assets']] or [manifest['blocks']]: a dictionary
    read through its ['version'] key. *)
Record entry := Entry { version : string }.

Record manifest := Manifest {
  assets : gmap string entry;
  blocks : gmap string entry
}.

Record settings_t := Settings {
  static_dir : string;
  static_url_prefix : string;
  closure_compiler : string;
  yui_compressor_path : string;
  lessc_path : string;
  sass_compiler_path : string
}.

(** The compiler classes of the module. *)
Inductive compiler_kind := AssetCompiler | JSCompiler | CSSCompiler | LessCompiler | SassCompiler.

(** [self]: the state an [assetman.AssetManager] brings to the mixin.
    [get_hash], [get_compiled_name] and [str] stand for the results of the
    manager's [get_hash()], [get_compiled_name()] and [__str__()]. *)
Record manager := Manager {
  kind : compiler_kind;
  settings : settings_t;
  rel_urls : list string;
  src_path : string;
  get_hash : string;
  get_compiled_name : string;
  str : string
}.

Definition get_compiled_path `{Env} (self : manager) : string :=
  make_output_path (static_dir (settings self)) (get_compiled_name self).

(** ** AssetCompiler.needs_compile *)

Definition needs_compile `{Env} (self : manager)
    (cached_manifest current_manifest : manifest) : M bool :=
  let name_hash := get_hash self in
  match blocks current_manifest !! name_hash with
  | None => raise (AssertionError [VObj (str self)])
  | Some cur =>
    let content_hash := version cur in
    match blocks cached_manifest !! name_hash with
    | Some old =>
      if String.eqb (version old) content_hash then
        let compiled_path := get_compiled_path self in
        if negb (os_path_exists compiled_path) then
          run! logging WARN "Missing compiled asset %s from %s"
                  [VStr compiled_path; VObj (str self)] in
          ret true
        else ret false
      else
        run! logging WARN "Contents of %s changed" [VObj (str self)] in
        ret true
    | None =>
      run! logging WARN "New/unknown hash %s from %s"
              [VStr name_hash; VObj (str self)] in
      ret true
    end
  end.

(** ** AssetCompiler.get_paths *)

Definition get_paths `{Env} (self : manager) : M (list string) :=
  let paths := map (make_static_path (static_dir (settings self))) (rel_urls self) in
  if forallb os_path_isfile paths then ret paths
  else
    let missing := List.filter (fun path => negb (os_path_isfile path)) paths in
    raise (DependencyError (src_path self) (String.concat "," missing)).

(** ** hashlib.md5 (RFC 1321) *)

Definition w32 (x : Z) : Z := x mod 2 ^ 32.

Definition not32 (x : Z) : Z := Z.lxor x 4294967295.

Definition rotl32 (x c : Z) : Z :=
  w32 (Z.lor (Z.shiftl x c) (Z.shiftr x (32 - c))).

Definition bytes_of_string (s : string) : list Z :=
  map (fun a => Z.of_N (N_of_ascii a)) (list_ascii_of_string s).

Fixpoint le_bytes (k : nat) (x : Z) : list Z :=
  match k with
  | O => []
  | S k' => x mod 256 :: le_bytes k' (x / 256)
  end.

Fixpoint le_word (bs : list Z) : Z :=
  match bs with
  | [] => 0
  | b :: r => b + 256 * le_word r
  end.

Fixpoint chunks {A} (fuel n : nat) (l : list A) : list (list A) :=
  match fuel with
  | O => []
  | S fuel' =>
    match l with
    | [] => []
    | _ => firstn n l :: chunks fuel' n (skipn n l)
    end
  end.

Definition md5_shift : list Z :=
  [7; 12; 17; 22; 7; 12; 17; 22; 7; 12; 17; 22; 7; 12; 17; 22;
   5; 9; 14; 20; 5; 9; 14; 20; 5; 9; 14; 20; 5; 9; 14; 20;
   4; 11; 16; 23; 4; 11; 16; 23; 4; 11; 16; 23; 4; 11; 16; 23;
   6; 10; 15; 21; 6; 10; 15; 21; 6; 10; 15; 21; 6; 10; 15; 21].

Definition md5_sine : list Z :=
  [3614090360; 3905402710; 606105819; 3250441966; 4118548399; 1200080426;
   2821735955; 4249261313; 1770035416; 2336552879; 4294925233; 2304563134;
   1804603682; 4254626195; 2792965006; 1236535329; 4129170786; 3225465664;
   643717713; 3921069994; 3593408605; 38016083; 3634488961; 3889429448;
   568446438; 3275163606; 4107603335; 1163531501; 2850285829; 4243563512;
   1735328473; 2368359562; 4294588738; 2272392833; 1839030562; 4259657740;
   2763975236; 1272893353; 4139469664; 3200236656; 681279174; 3936430074;
   3572445317; 76029189; 3654602809; 3873151461; 530742520; 3299628645;
   4096336452; 1126891415; 2878612391; 4237533241; 1700485571; 2399980690;
   4293915773; 2240044497; 1873313359; 4264355552; 2734768916; 1309151649;
   4149444226; 3174756917; 718787259; 3951481745].

Definition zth (l : list Z) (i : Z) : Z := nth (Z.to_nat i) l 0.

Definition md5_pad (msg : list Z) : list Z :=
  let n := Z.of_nat (length msg) in
  msg ++ [128] ++ repeat 0 (Z.to_nat ((55 - n) mod 64)) ++ le_bytes 8 (8 * n).

Definition md5_step (m : list Z) (st : Z * Z * Z * Z) (i : Z) : Z * Z * Z * Z :=
  let '(a, b, c, d) := st in
  let '(f, g) :=
    if i <? 16 then (Z.lor (Z.land b c) (Z.land (not32 b) d), i)
    else if i <? 32 then (Z.lor (Z.land d b) (Z.land (not32 d) c), (5 * i + 1) mod 16)
    else if i <? 48 then (Z.lxor b (Z.lxor c d), (3 * i + 5) mod 16)
    else (Z.lxor c (Z.lor b (not32 d)), (7 * i) mod 16) in
  let f' := w32 (f + a + zth md5_sine i + zth m g) in
  (d, w32 (b + rotl32 f' (zth md5_shift i)), b, c).

Definition md5_block (st : Z * Z * Z * Z) (block : list Z) : Z * Z * Z * Z :=
  let m := map le_word (chunks 16 4 block) in
  let '(a0, b0, c0, d0) := st in
  let '(a, b, c, d) :=
    fold_left (md5_step m) (map Z.of_nat (seq 0 64)) st in
  (w32 (a0 + a), w32 (b0 + b), w32 (c0 + c), w32 (d0 + d)).

Definition hex_digit (n : Z) : ascii :=
  match String.get (Z.to_nat n) "0123456789abcdef" with
  | Some c => c
  | None => "0"%char
  end.

Definition hex_byte (b : Z) : list ascii := [hex_digit (b / 16); hex_digit (b mod 16)].

(** The digest of a byte string, as [hexdigest()] prints it. *)
Definition md5_hex (s : string) : string :=
  let padded := md5_pad (bytes_of_string s) in
  let '(a, b, c, d) :=
    fold_left md5_block (chunks (length padded) 64 padded)
              (1732584193, 4023233417, 2562383102, 271733878) in
  string_of_list_ascii
    (concat (map hex_byte (le_bytes 4 a ++ le_bytes 4 b ++ le_bytes 4 c ++ le_bytes 4 d))).

(** A [hashlib.md5()] object is the bytes fed to it so far: [update] appends
    (repeated calls amount to one call on the concatenation), [hexdigest]
    hashes what was fed. *)
Definition md5_new : string := "".
Definition md5_update (h : string) (data : string) : string := h +:+ data.
Definition md5_hexdigest (h : string) : string := md5_hex h.

(** ** AssetCompiler.get_current_content_hash *)

(** The [for path in self.get_paths()] loop over the hash object. *)
Fixpoint hash_paths (mf : manifest) (paths : list string) (h : string) : M string :=
  match paths with
  | [] => ret h
  | path :: rest =>
    match assets mf !! path with
    | None => raise (AssertionError [])
    | Some e => hash_paths mf rest (md5_update h (version e))
    end
  end.

Definition get_current_content_hash `{Env} (self : manager) (mf : manifest)
  : M string :=
  let h := md5_new in
  let! paths := get_paths self in
  let! h := hash_paths mf paths h in
  ret (md5_hexdigest h).

(** ** base64.b64encode *)

Definition b64_char (n : Z) : ascii :=
  match String.get (Z.to_nat n)
          "ABCDEFGHIJKLMNOPQRSTUVWXYZabcdefghijklmnopqrstuvwxyz0123456789+/" with
  | Some c => c
  | None => "="%char
  end.

Fixpoint b64_bytes (l : list Z) : list ascii :=
  match l with
  | a :: b :: c :: r =>
    let n := a * 65536 + b * 256 + c in
    b64_char (n / 262144) :: b64_char (n / 4096 mod 64)
      :: b64_char (n / 64 mod 64) :: b64_char (n mod 64) :: b64_bytes r
  | [a; b] =>
    let n := a * 65536 + b * 256 in
    [b64_char (n / 262144); b64_char (n / 4096 mod 64);
     b64_char (n / 64 mod 64); "="%char]
  | [a] =>
    let n := a * 65536 in
    [b64_char (n / 262144); b64_char (n / 4096 mod 64); "="%char; "="%char]
  | [] => []
  end.

Definition b64encode (s : string) : string :=
  string_of_list_ascii (b64_bytes (bytes_of_string s)).

(** ** CSSCompiler.inline_images *)

(** [KB = 1024.0] and the two thresholds are floats in the source; they are
    whole numbers and are only compared with [int]s ([st_size], [len]), and
    Python compares an [int] with a [float] exactly, so integers model them. *)
Definition KB : Z := 1024.
Definition MAX_FILE_SIZE : Z := 24 * KB.
Definition MAX_DATA_URI_SIZE : Z := 32 * KB.

(** ['%s' % mime], where [mime] may be [None]. *)
Definition percent_s (o : option string) : string :=
  match o with
  | Some s => s
  | None => "None"
  end.

(** ['data:%s;base64,%s' % (mime, encoded)] *)
Definition make_data_uri (mime : option string) (encoded : string) : string :=
  "data:" +:+ percent_s mime +:+ ";base64," +:+ encoded.

(** [seen_assets[key] += 1] on a [defaultdict(int)]. *)
Definition bump (key : string) (seen : gmap string Z) : gmap string Z :=
  <[key := default 0 (seen !! key) + 1]> seen.

(** The closure [replacer(match)]; [seen_assets] is threaded through. *)
Definition replacer `{Env} (self : manager) (m : rematch)
    (seen_assets : gmap string Z) : M (string * gmap string Z) :=
  let path := make_static_path_rel (rel_path m) in
  if negb (os_path_isfile path) then
    raise (AssertionError [VStr path; VStr (str self)])
  else if st_size path >? MAX_FILE_SIZE then
    run! logging DEBUG "Not inlining %s (%.2fKB)" [VStr path; VKB (st_size path)] in
    ret (group0 m, seen_assets)
  else
    let! content := open_read path in
    let encoded := b64encode content in
    let mime := guess_type path in
    let data_uri := make_data_uri mime encoded in
    if Z.of_nat (String.length data_uri) >=? MAX_DATA_URI_SIZE then
      run! logging DEBUG "Not inlining %s (%.2fKB encoded)"
                   [VStr path; VKB (Z.of_nat (String.length data_uri))] in
      ret (group0 m, seen_assets)
    else
      ret (before m +:+ data_uri +:+ after m,
           bump (url_prefix m +:+ rel_path m) seen_assets).

(** [re.sub(pattern, replacer, css_src)] over the decomposition of the
    subject: literal text is copied, every match goes through [replacer],
    left to right. *)
Fixpoint re_sub `{Env} (self : manager) (ps : list piece)
    (seen_assets : gmap string Z) : M (string * gmap string Z) :=
  match ps with
  | [] => ret ("", seen_assets)
  | Lit s :: rest =>
    let! r := re_sub self rest seen_assets in
    ret (s +:+ fst r, snd r)
  | Hit m :: rest =>
    let! x := replacer self m seen_assets in
    let! r := re_sub self rest (snd x) in
    ret (fst x +:+ fst r, snd r)
  end.

(** The loop over [seen_assets.iteritems()]. *)
Fixpoint warn_duplicates (items : list (string * Z)) : M unit :=
  match items with
  | [] => ret tt
  | (url, count) :: rest =>
    run! (if count >? 1 then
            logging WARN "Inlined asset duplicated %dx: %s" [VInt count; VStr url]
          else ret tt) in
    warn_duplicates rest
  end.

Definition inline_images `{Env} (self : manager) (css_src : string) : M string :=
  let ps := static_url_scan (static_url_prefix (settings self)) css_src in
  let! r := re_sub self ps ∅ in
  run! warn_duplicates (map_to_list (snd r)) in
  ret (fst r).

(** ** The do_compile methods *)

(** The keyword arguments the methods look at. *)
Record kwargs := Kwargs {
  css_input : option string;
  skip_inline_images : bool
}.

Definition no_kwargs : kwargs := Kwargs None false.

Definition js_do_compile `{Env} (self : manager) (kw : kwargs) : M string :=
  let cmd := ["java"; "-jar"; closure_compiler (settings self);
              "--compilation_level"; "SIMPLE_OPTIMIZATIONS"] in
  let! paths := get_paths self in
  let cmd := (cmd ++ concat (map (fun path => ["--js"; path]) paths))%list in
  run_proc cmd None.

Definition css_do_compile `{Env} (self : manager) (kw : kwargs) : M string :=
  let! css_input :=
    match css_input kw with
    | Some css => ret css
    | None =>
      let! paths := get_paths self in
      let! texts := mapM open_read paths in
      ret (String.concat nl texts)
    end in
  let! css_input :=
    if negb (skip_inline_images kw) then inline_images self css_input
    else ret css_input in
  let cmd := ["java"; "-jar"; yui_compressor_path (settings self);
              "--type"; "css"; "--line-break"; "160"] in
  run_proc cmd (Some css_input).

(** [super(LessCompiler, self).do_compile(css_input=...)] passes [css_input]
    alone: the caller's keyword arguments are not forwarded. *)
Definition less_do_compile `{Env} (self : manager) (kw : kwargs) : M string :=
  let lessc := lessc_path (settings self) in
  let! paths := get_paths self in
  let! outputs := mapM (fun path => run_proc [lessc; path] None) paths in
  css_do_compile self (Kwargs (Some (String.concat nl outputs)) false).

Definition sass_do_compile `{Env} (self : manager) (kw : kwargs) : M string :=
  let cmd := ([sass_compiler_path (settings self); "--compass"; "--trace"; "-l"]
              ++ rel_urls self)%list in
  let! output := run_proc cmd None in
  css_do_compile self (Kwargs (Some output) false).

Definition do_compile `{Env} (self : manager) (kw : kwargs) : M string :=
  match kind self with
  | AssetCompiler => raise NotImplementedError
  | JSCompiler => js_do_compile self kw
  | CSSCompiler => css_do_compile self kw
  | LessCompiler => less_do_compile self kw
  | SassCompiler => sass_do_compile self kw
  end.

(** ** AssetCompiler.compile *)

Definition compile `{Env} (self : manager) (mf : manifest) (kw : kwargs) : M string :=
  run! logging INFO "Compiling %s" [VObj (str self)] in
  do_compile self kw.

(** ** A sample environment

    A small static tree, stand-ins for the external tools, and a scanner for
    [url(<quote>?<prefix><path><quote>?)], used to run the model on concrete
    inputs. *)

Fixpoint strip_prefix (p s : string) : option string :=
  match p, s with
  | EmptyString, _ => Some s
  | String a p', String b s' => if Ascii.eqb a b then strip_prefix p' s' else None
  | String _ _, EmptyString => None
  end.

Definition is_quote (c : ascii) : bool :=
  Ascii.eqb c "'"%char || Ascii.eqb c (ascii_of_nat 34).

Definition strip_quote (s : string) : string * string :=
  match s with
  | String c r => if is_quote c then (String c "", r) else ("", s)
  | EmptyString => ("", s)
  end.

Fixpoint take_path (s : string) : string * string :=
  match s with
  | String c r =>
    if is_quote c || Ascii.eqb c ")"%char then ("", s)
    else let '(p, rest) := take_path r in (String c p, rest)
  | EmptyString => ("", s)
  end.

Definition match_here (prefix s : string) : option (rematch * string) :=
  match strip_prefix "url(" s with
  | None => None
  | Some s1 =>
    let '(q1, s2) := strip_quote s1 in
    match strip_prefix prefix s2 with
    | None => None
    | Some s3 =>
      let '(rel, s4) := take_path s3 in
      let '(q2, s5) := strip_quote s4 in
      match rel, strip_prefix ")" s5 with
      | String _ _, Some s6 =>
        Some (Rematch ("url(" +:+ q1 +:+ prefix +:+ rel +:+ q2 +:+ ")")
                      ("url(" +:+ q1) prefix rel (q2 +:+ ")"), s6)
      | _, _ => None
      end
    end
  end.

Fixpoint sample_scan_from (fuel : nat) (prefix lit s : string) : list piece :=
  match fuel with
  | O => [Lit (lit +:+ s)]
  | S fuel' =>
    match match_here prefix s with
    | Some (m, rest) => Lit lit :: Hit m :: sample_scan_from fuel' prefix "" rest
    | None =>
      match s with
      | EmptyString => [Lit lit]
      | String c r => sample_scan_from fuel' prefix (lit +:+ String c "") r
      end
    end
  end.

Definition sample_scan (prefix s : string) : list piece :=
  sample_scan_from (S (String.length s)) prefix "" s.

Definition ends_with (suffix s : string) : bool :=
  match strip_prefix (string_of_list_ascii (rev (list_ascii_of_string suffix)))
                     (string_of_list_ascii (rev (list_ascii_of_string s))) with
  | Some _ => true
  | None => false
  end.

Definition sample_guess_type (path : string) : option string :=
  if ends_with ".png" path then Some "image/png"
  else if ends_with ".gif" path then Some "image/gif"
  else None.

Definition filler (n : N) : string := N.iter n (String "x"%char) "".

Definition sample_fs : gmap string node :=
  list_to_map
    [("static", Dir);
     ("static/a.less", File "@c: red; a { color: @c }");
     ("static/b.less", File "b { margin: 0 }");
     ("static/site.css", File "p { background: url(/s/img/dot.png) }");
     ("static/reset.css", File "");
     ("static/print.css", File "");
     ("static/img/dot.png", File "PNGdata");
     ("static/img/glyph.zzz", File "glyph");
     ("static/img/big.png", File (filler 25600));
     ("static/img/edge.png", File (filler 24576));
     ("static/out/site.css", File "p{}")].

(** [lessc] answers with a comment naming its input, [sass] succeeds with a
    warning on its standard error, [java] (the minifiers) echoes its standard
    input, anything else is not found. *)
Definition sample_popen (cmd : list string) (stdin : option string) : completed :=
  match cmd with
  | ["lessc"; path] => Completed ("/* " +:+ path +:+ " */") "" 0
  | "sass" :: _ => Completed "s { }" "DEPRECATION WARNING" 0
  | "java" :: _ => Completed (default "" stdin) "" 0
  | _ => Completed "" "command not found" 127
  end.

Definition sample_env : Env := {|
  fs := sample_fs;
  popen := sample_popen;
  make_static_path := fun d p => d +:+ "/" +:+ p;
  make_static_path_rel := fun p => "static/" +:+ p;
  make_output_path := fun d n => d +:+ "/out/" +:+ n;
  static_url_scan := sample_scan;
  guess_type := sample_guess_type
|}.

Definition sample_settings : settings_t :=
  Settings "static" "/s/" "closure.jar" "yui.jar" "lessc" "sass".

Definition sample_manager (k : compiler_kind) (urls : list string) : manager :=
  Manager k sample_settings urls "templates/base.html" "block1" "site.css"
          "<block1 templates/base.html>".

Definition w0 : world := World [] [].

Definition sample_css : manager := sample_manager CSSCompiler ["site.css"].

Definition sample_less : manager := sample_manager LessCompiler ["a.less"; "b.less"].

Definition sample_less_missing : manager := sample_manager LessCompiler ["missing.less"].

Definition sample_sass_missing : manager := sample_manager SassCompiler ["missing.scss"].

(** Two blocks over the same two (empty) style sheets, in opposite orders. *)
Definition sample_reset_print : manager :=
  sample_manager CSSCompiler ["reset.css"; "print.css"].

Definition sample_print_reset : manager :=
  sample_manager CSSCompiler ["print.css"; "reset.css"].

(** Sample style sheets: one with a small, a 25 KiB and a 24 KiB image; one
    with an image of unknown type; one with a reference to a file that does
    not exist; one mixing a static reference with other [url()] forms. *)
Definition css_sizes : string :=
  "a{b:url(/s/img/dot.png)} c{d:url(/s/img/big.png)} e{f:url(/s/img/edge.png)}".

Definition css_glyph : string := "c{d:url('/s/img/glyph.zzz')}".

Definition glyph_match : rematch :=
  Rematch "url('/s/img/glyph.zzz')" "url('" "/s/" "img/glyph.zzz" "')".

Definition css_nope : string := "a{b:url(/s/img/nope.png)}".

Definition nope_match : rematch :=
  Rematch "url(/s/img/nope.png)" "url(" "/s/" "img/nope.png" ")".

Definition css_mixed : string :=
  "a{b:url(/s/img/dot.png)} c{filter:url(#blur);d:url(http://cdn/x.png)}".

(** A manifest whose asset versions are the digests of the sample files;
    [reset.css] and [print.css] are both empty and share a version. *)
Definition sample_manifest : manifest :=
  Manifest
    (list_to_map
       [("static/a.less", Entry (md5_hex "@c: red; a { color: @c }"));
        ("static/b.less", Entry (md5_hex "b { margin: 0 }"));
        ("static/reset.css", Entry (md5_hex ""));
        ("static/print.css", Entry (md5_hex ""))])
    (list_to_map [("block1", Entry "0123abcd")]).

(** ** Vocabulary of the properties *)

(** The three conditions under which a compiled block is still valid: the
    block is known to the cached manifest, with the version the current
    manifest records, and its compiled output is on disk. *)
Definition up_to_date `{Env} (self : manager) (cached current : manifest) : Prop :=
  exists old cur,
    blocks cached !! get_hash self = Some old /\
    blocks current !! get_hash self = Some cur /\
    version old = version cur /\
    os_path_exists (get_compiled_path self) = true.

(** The resolved paths of a manager, and those of them that are not files. *)
Definition static_paths `{Env} (self : manager) : list string :=
  map (make_static_path (static_dir (settings self))) (rel_urls self).

Definition missing_paths `{Env} (self : manager) : list string :=
  List.filter (fun path => negb (os_path_isfile path)) (static_paths self).

(** The versions a manifest records for a list of paths, in order. *)
Definition versions_of (mf : manifest) (paths : list string) (versions : list string) : Prop :=
  Forall2 (fun path v => exists e, assets mf !! path = Some e /\ version e = v)
          paths versions.

(** The [lessc] invocation for one path, and what it prints. *)
Definition lessc_cmd (self : manager) (path : string) : list string :=
  [lessc_path (settings self); path].

Definition transpile `{Env} (self : manager) (path : string) : string :=
  out (popen (lessc_cmd self path) None).

(** The file a match refers to, and the data URI built from its content. *)
Definition match_path `{Env} (m : rematch) : string :=
  make_static_path_rel (rel_path m).

Definition data_uri_of `{Env} (path content : string) : string :=
  make_data_uri (guess_type path) (b64encode content).

(** The text a piece of the subject stands for. *)
Definition raw (p : piece) : string :=
  match p with
  | Lit s => s
  | Hit m => group0 m
  end.

(** Concatenation of the pieces of a text. *)
Definition glue (l : list string) : string := fold_right String.append "" l.

(** The size policy, piece by piece: literal text is kept; a match on a file
    of at most 24 KiB whose data URI is shorter than 32 KiB becomes that URI
    between the kept [url(] and [)] parts; a match on a larger file, or with
    a data URI of 32 KiB or more, is kept as it was. *)
Definition threshold_rule `{Env} (p : piece) (o : string) : Prop :=
  match p with
  | Lit s => o = s
  | Hit m =>
    exists content,
      fs !! match_path m = Some (File content) /\
      let size := Z.of_nat (String.length content) in
      let uri := data_uri_of (match_path m) content in
      let uri_len := Z.of_nat (String.length uri) in
      (size <= 24 * 1024 /\ uri_len < 32 * 1024 ->
       o = before m +:+ uri +:+ after m) /\
      (size > 24 * 1024 \/ uri_len >= 32 * 1024 -> o = group0 m)
  end.


(** Every exception a computation can raise satisfies [P]. *)
Definition raises_only {A} (P : exn -> Prop) (m : M A) : Prop :=
  forall w e w', m w = (inl e, w') -> P e.

(** A computation only adds to the processes spawned so far. *)
Definition spawns_onward {A} (m : M A) : Prop :=
  forall w r w', m w = (r, w') -> exists more, spawned w' = (spawned w ++ more)%list.

Definition not_dependency_error (e : exn) : Prop :=
  forall src missing, e <> DependencyError src missing.

(** The command line of the SASS transpiler, as [SassCompiler.do_compile]
    builds it. *)
Definition sass_cmd (self : manager) : list string :=
  ([sass_compiler_path (settings self); "--compass"; "--trace"; "-l"] ++ rel_urls self)%list.

(** The command lines of the Closure compiler and of the YUI compressor, as
    [JSCompiler.do_compile] and [CSSCompiler.do_compile] build them. *)
Definition js_cmd `{Env} (self : manager) : list string :=
  (["java"; "-jar"; closure_compiler (settings self);
    "--compilation_level"; "SIMPLE_OPTIMIZATIONS"]
   ++ concat (map (fun path => ["--js"; path]) (static_paths self)))%list.

Definition yui_cmd (self : manager) : list string :=
  ["java"; "-jar"; yui_compressor_path (settings self);
   "--type"; "css"; "--line-break"; "160"].

(** What a finished process means for the caller of [run_proc]. *)
Definition outcome (cmd : list string) (p : completed) : exn + string :=
  if returncode p =? 0 then inr (out p) else inl (CompileError cmd (err p)).


(** The three warnings of [needs_compile]. *)
Definition warns_unknown (self : manager) : log_record :=
  LogRecord WARN "New/unknown hash %s from %s" [VStr (get_hash self); VObj (str self)].

Definition warns_changed (self : manager) : log_record :=
  LogRecord WARN "Contents of %s changed" [VObj (str self)].

Definition warns_missing_output `{Env} (self : manager) : log_record :=
  LogRecord WARN "Missing compiled asset %s from %s"
            [VStr (get_compiled_path self); VObj (str self)].

(** A computation spawns no process, whether it returns or raises. *)
Definition spawns_nothing {A} (m : M A) : Prop :=
  forall w, spawned (snd (m w)) = spawned w.

(** A computation never reads the log: from the same processes spawned so
    far it gives the same outcome and appends the same records, whatever was
    logged before. *)
Definition log_blind {A} (m : M A) : Prop :=
  forall s, exists r new s', forall l, m (World l s) = (r, World (l ++ new) s').

Definition compiling_record (self : manager) : log_record :=
  LogRecord INFO "Compiling %s" [VObj (str self)].

(** Whether [replacer] inlines a match: the file exists and passes both
    size tests. *)
Definition inlines `{Env} (m : rematch) : bool :=
  match fs !! match_path m with
  | Some (File content) =>
    negb (Z.of_nat (String.length content) >? MAX_FILE_SIZE)
    && negb (Z.of_nat (String.length (data_uri_of (match_path m) content))
             >=? MAX_DATA_URI_SIZE)
  | _ => false
  end.

(** The key under which [seen_assets] counts a match. *)
Definition asset_key (m : rematch) : string := url_prefix m +:+ rel_path m.

(** How many matches of a subject are inlined under a given key. *)
Fixpoint inlined_count `{Env} (key : string) (ps : list piece) : Z :=
  match ps with
  | [] => 0
  | Lit _ :: rest => inlined_count key rest
  | Hit m :: rest =>
    (if inlines m && String.eqb (asset_key m) key then 1 else 0)
    + inlined_count key rest
  end.

Definition duplicate_warning (item : string * Z) : log_record :=
  LogRecord WARN "Inlined asset duplicated %dx: %s" [VInt (snd item); VStr (fst item)].

Definition is_debug (r : log_record) : Prop := lvl r = DEBUG.

(** More sample inputs: a script block over two existing files, a block
    without assets, a LESS block of three files, the matches of the small and
    of the 24 KiB image, a style sheet that refers to the small image twice,
    and an environment whose [lessc] rejects [b.less]. *)
Definition sample_js : manager := sample_manager JSCompiler ["reset.css"; "print.css"].

Definition sample_empty : manager := sample_manager JSCompiler [].

Definition sample_less_three : manager :=
  sample_manager LessCompiler ["a.less"; "b.less"; "site.css"].

Definition dot_match : rematch :=
  Rematch "url(/s/img/dot.png)" "url(" "/s/" "img/dot.png" ")".

Definition edge_match : rematch :=
  Rematch "url(/s/img/edge.png)" "url(" "/s/" "img/edge.png" ")".

Definition css_twice : string :=
  "a{b:url(/s/img/dot.png)} c{d:url('/s/img/dot.png')} e{f:url(/s/img/glyph.zzz)}".

Definition strict_popen (cmd : list string) (stdin : option string) : completed :=
  match cmd with
  | ["lessc"; "static/b.less"] => Completed "" "ParseError in b.less" 1
  | _ => sample_popen cmd stdin
  end.

Definition strict_env : Env := {|
  fs := sample_fs;
  popen := strict_popen;
  make_static_path := fun d p => d +:+ "/" +:+ p;
  make_static_path_rel := fun p => "static/" +:+ p;
  make_output_path := fun d n => d +:+ "/out/" +:+ n;
  static_url_scan := sample_scan;
  guess_type := sample_guess_type
|}.

(** A style sheet with an existing image followed by two references to
    files that do not exist, and the matches of those two. *)
Definition css_two_missing : string :=
  "a{b:url(/s/img/dot.png)} c{d:url(/s/img/nope1.png)} e{f:url(/s/img/nope2.png)}".

Definition nope1_match : rematch :=
  Rematch "url(/s/img/nope1.png)" "url(" "/s/" "img/nope1.png" ")".

Definition nope2_match : rematch :=
  Rematch "url(/s/img/nope2.png)" "url(" "/s/" "img/nope2.png" ")".

(** ** Tactics for concrete inputs *)

(** Discharges "every match refers to a file" over a concrete subject. *)
Ltac hits_are_files :=
  let m := fresh "m" in
  let H := fresh "H" in
  intros m H; vm_compute in H;
  repeat (destruct H as [H | H];
          [try discriminate H; injection H as <-; vm_compute; reflexivity |]);
  destruct H.

(** Discharges a property of every resolved path of a concrete manager. *)
Ltac each_path :=
  let p := fresh "p" in
  let H := fresh "H" in
  intros p H; vm_compute in H;
  repeat (destruct H as [H | H]; [subst p; vm_compute; reflexivity |]);
  destruct H.

(** * Properties *)

Section Monad.
Context {A B : Type}.

Lemma bind_ret (a : A) (k : A -> M B) w : bind (ret a) k w = k a w.
Proof. reflexivity. Qed.

Lemma bind_raise (e : exn) (k : A -> M B) w : bind (raise e) k w = (inl e, w).
Proof. reflexivity. Qed.

Lemma bind_returns (m : M A) (k : A -> M B) w a w' :
  m w = (inr a, w') -> bind m k w = k a w'.
Proof. intros E. unfold bind. now rewrite E. Qed.

Lemma bind_raises (m : M A) (k : A -> M B) w e w' :
  m w = (inl e, w') -> bind m k w = (inl e, w').
Proof. intros E. unfold bind. now rewrite E. Qed.

End Monad.

Section Staleness.
Context {E : Env}.

(** C1. [needs_compile] on a block of the current manifest answers [False]
    exactly when the block is in the cached manifest with the same version
    and its compiled output exists, and [True] otherwise; on a block the
    current manifest does not know, it raises the assertion error instead
    of answering. *)
Theorem needs_compile_iff_stale (self : manager) (cached current : manifest) (w : world) :
  (is_Some (blocks current !! get_hash self) ->
   exists b w',
     needs_compile self cached current w = (inr b, w') /\
     spawned w' = spawned w /\
     (b = false <-> up_to_date self cached current) /\
     (b = true <-> ~ up_to_date self cached current))
  /\
  (blocks current !! get_hash self = None ->
   needs_compile self cached current w = (inl (AssertionError [VObj (str self)]), w)).
Proof.
  split.
  - intros [cur Hcur]. unfold needs_compile, up_to_date. rewrite Hcur.
    destruct (blocks cached !! get_hash self) as [old |] eqn:Hold.
    + destruct (String.eqb (version old) (version cur)) eqn:Hv.
      * apply String.eqb_eq in Hv.
        destruct (os_path_exists (get_compiled_path self)) eqn:Hx; cbn.
        -- exists false, w. repeat split; try done.
           ++ intros _. exists old, cur. done.
           ++ intros Hn. exfalso. apply Hn. exists old, cur. done.
        -- eexists true, _. repeat split; try done.
           ++ intros (? & ? & _ & _ & _ & ?). congruence.
           ++ intros _ (? & ? & _ & _ & _ & ?). congruence.
      * apply String.eqb_neq in Hv. cbn.
        eexists true, _. repeat split; try done.
        -- intros (o & c & Ho & Hc & Hvv & _). congruence.
        -- intros _ (o & c & Ho & Hc & Hvv & _). congruence.
    + cbn. eexists true, _. repeat split; try done.
      * intros (o & c & Ho & _). congruence.
      * intros _ (o & c & Ho & _). congruence.
  - intros Hnone. unfold needs_compile. now rewrite Hnone.
Qed.
End Staleness.

Section Runner.
Context {E : Env}.

Lemma run_proc_zero (cmd : list string) (stdin : option string) (w : world) :
  returncode (popen cmd stdin) = 0 ->
  run_proc cmd stdin w =
    (inr (out (popen cmd stdin)),
     World (logged w ++
              (if truthy (err (popen cmd stdin))
               then [LogRecord WARN ("%s stderr:" +:+ nl +:+ "%s")
                               [VStr (hd "" cmd); VStr (err (popen cmd stdin))]]
               else []))
           (spawned w ++ [(cmd, stdin)])).
Proof.
  intros Hrc. unfold run_proc, bind, communicate. rewrite Hrc. cbn.
  destruct (truthy (err (popen cmd stdin))); cbn.
  - reflexivity.
  - now rewrite app_nil_r.
Qed.

Lemma run_proc_nonzero (cmd : list string) (stdin : option string) (w : world) :
  returncode (popen cmd stdin) <> 0 ->
  run_proc cmd stdin w =
    (inl (CompileError cmd (err (popen cmd stdin))),
     World (logged w) (spawned w ++ [(cmd, stdin)])).
Proof.
  intros Hrc. unfold run_proc, bind, communicate.
  destruct (returncode (popen cmd stdin) =? 0) eqn:Hz.
  - apply Z.eqb_eq in Hz. contradiction.
  - reflexivity.
Qed.

(** C2. [run_proc]: when the process exits with status 0 the call returns
    the captured standard output, and a nonempty standard error only adds
    one warning to the log; when the status is not 0 the call raises
    [CompileError] with the command and the captured standard error. *)
Theorem run_proc_exit_status (cmd : list string) (stdin : option string) (w : world) :
  let p := popen cmd stdin in
  (returncode p = 0 ->
   run_proc cmd stdin w =
     (inr (out p),
      World (logged w ++
               (if truthy (err p)
                then [LogRecord WARN ("%s stderr:" +:+ nl +:+ "%s")
                                [VStr (hd "" cmd); VStr (err p)]]
                else []))
            (spawned w ++ [(cmd, stdin)])))
  /\
  (returncode p <> 0 ->
   run_proc cmd stdin w =
     (inl (CompileError cmd (err p)),
      World (logged w) (spawned w ++ [(cmd, stdin)]))).
Proof.
  intros p. split.
  - apply run_proc_zero.
  - apply run_proc_nonzero.
Qed.
End Runner.

Section Paths.
Context {E : Env}.

Lemma forallb_isfile_false (l : list string) :
  forallb os_path_isfile l = false <->
  exists p, In p l /\ os_path_isfile p = false.
Proof.
  induction l as [| x l IH]; cbn.
  - split; [discriminate | intros (p & [] & _)].
  - rewrite andb_false_iff, IH. split.
    + intros [Hx | (p & Hin & Hp)]; [exists x | exists p]; auto.
    + intros (p & [-> | Hin] & Hp); [left | right; exists p]; auto.
Qed.

Lemma get_paths_returns (self : manager) (w : world) :
  (forall p, In p (static_paths self) -> os_path_isfile p = true) ->
  get_paths self w = (inr (static_paths self), w).
Proof.
  intros Hall. unfold get_paths. fold (static_paths self).
  destruct (forallb os_path_isfile (static_paths self)) eqn:Hf; [reflexivity |].
  apply forallb_isfile_false in Hf as (p & Hin & Hp).
  rewrite (Hall p Hin) in Hp. discriminate.
Qed.

(** C6. [get_paths]: when every declared asset resolves to a file, the
    resolved paths are returned in the declared order; when some do not, the
    call raises [DependencyError] with the source path and the comma-joined
    list of all the paths that are not files, in the declared order. *)
Theorem get_paths_all_or_missing (self : manager) (w : world) :
  (forall p, In p (missing_paths self) <->
             In p (static_paths self) /\ os_path_isfile p = false)
  /\
  ((forall p, In p (static_paths self) -> os_path_isfile p = true) ->
   get_paths self w = (inr (static_paths self), w))
  /\
  ((exists p, In p (static_paths self) /\ os_path_isfile p = false) ->
   get_paths self w =
     (inl (DependencyError (src_path self) (String.concat "," (missing_paths self))), w)).
Proof.
  split; [| split].
  - intros p. unfold missing_paths. rewrite filter_In, negb_true_iff. tauto.
  - apply get_paths_returns.
  - intros Hex. apply forallb_isfile_false in Hex.
    unfold get_paths. fold (static_paths self). now rewrite Hex.
Qed.
End Paths.

Section ContentHash.
Context {E : Env}.

Lemma string_app_assoc (a b c : string) : (a +:+ b) +:+ c = a +:+ (b +:+ c).
Proof.
  induction a as [| x a IH]; [reflexivity |].
  change (String x ((a +:+ b) +:+ c) = String x (a +:+ (b +:+ c))).
  now rewrite IH.
Qed.

Lemma string_app_nil_r (a : string) : a +:+ "" = a.
Proof.
  induction a as [| x a IH]; [reflexivity |].
  change (String x (a +:+ "") = String x a).
  now rewrite IH.
Qed.

Lemma hash_paths_feeds_versions (mf : manifest) (paths versions : list string) :
  versions_of mf paths versions ->
  forall h w,
    hash_paths mf paths h w = (inr (h +:+ String.concat "" versions), w).
Proof.
  induction 1 as [| path v paths versions (e & He & Hv) _ IH]; intros h w; cbn.
  - now rewrite string_app_nil_r.
  - rewrite He, IH. unfold md5_update. subst v.
    rewrite string_app_assoc.
    destruct versions; cbn; [now rewrite string_app_nil_r | reflexivity].
Qed.

Lemma content_hash_of_versions (self : manager) (mf : manifest)
    (versions : list string) (w : world) :
  (forall p, In p (static_paths self) -> os_path_isfile p = true) ->
  versions_of mf (static_paths self) versions ->
  get_current_content_hash self mf w = (inr (md5_hex (String.concat "" versions)), w).
Proof.
  intros Hfiles Hv. unfold get_current_content_hash.
  rewrite (bind_returns _ _ _ _ _ (get_paths_returns self w Hfiles)).
  rewrite (bind_returns _ _ _ _ _ (hash_paths_feeds_versions _ _ _ Hv md5_new w)).
  reflexivity.
Qed.

(** C7, as the code has it.  [get_current_content_hash] feeds the versions of
    the resolved paths to MD5 in the order given and returns the digest of
    their concatenation: the result is a function of the ordered version
    list, and two orderings (or two blocks) whose versions concatenate to the
    same text get the same hash. *)
Theorem content_hash_folds_versions (self self' : manager) (mf mf' : manifest)
    (versions versions' : list string) (w w' : world) :
  (forall p, In p (static_paths self) -> os_path_isfile p = true) ->
  (forall p, In p (static_paths self') -> os_path_isfile p = true) ->
  versions_of mf (static_paths self) versions ->
  versions_of mf' (static_paths self') versions' ->
  get_current_content_hash self mf w = (inr (md5_hex (String.concat "" versions)), w)
  /\
  (String.concat "" versions = String.concat "" versions' ->
   fst (get_current_content_hash self mf w) = fst (get_current_content_hash self' mf' w')).
Proof.
  intros Hf Hf' Hv Hv'. split.
  - now apply content_hash_of_versions.
  - intros Heq.
    rewrite (content_hash_of_versions self mf versions w Hf Hv).
    rewrite (content_hash_of_versions self' mf' versions' w' Hf' Hv').
    cbn. now rewrite Heq.
Qed.
End ContentHash.

Section Less.
Context {E : Env}.

Lemma lessc_each_file (self : manager) (paths : list string) :
  (forall p, In p paths -> returncode (popen (lessc_cmd self p) None) = 0) ->
  forall w, exists w',
    mapM (fun path => run_proc [lessc_path (settings self); path] None) paths w
      = (inr (map (transpile self) paths), w') /\
    spawned w' = (spawned w ++ map (fun p => (lessc_cmd self p, None)) paths)%list.
Proof.
  induction paths as [| p paths IH]; intros Hrc w.
  - exists w. cbn. now rewrite app_nil_r.
  - cbn [mapM].
    assert (Hp : returncode (popen (lessc_cmd self p) None) = 0)
      by (apply Hrc; now left).
    destruct (IH (fun q Hq => Hrc q (or_intror Hq))
                 (World (logged w ++
                           (if truthy (err (popen (lessc_cmd self p) None))
                            then [LogRecord WARN ("%s stderr:" +:+ nl +:+ "%s")
                                    [VStr (hd "" (lessc_cmd self p));
                                     VStr (err (popen (lessc_cmd self p) None))]]
                            else []))
                        (spawned w ++ [(lessc_cmd self p, None)])))
      as (w' & Hrun & Hsp).
    exists w'. split.
    + rewrite (bind_returns _ _ _ _ _ (run_proc_zero (lessc_cmd self p) None w Hp)).
      rewrite (bind_returns _ _ _ _ _ Hrun). reflexivity.
    + rewrite Hsp. cbn. now rewrite <- app_assoc.
Qed.

End Less.

Section Inlining.
Context {E : Env}.

Lemma glue_app (a b : list string) : glue (a ++ b) = glue a +:+ glue b.
Proof.
  induction a as [| x a IH]; [reflexivity |].
  change (x +:+ glue (a ++ b) = (x +:+ glue a) +:+ glue b).
  now rewrite IH, string_app_assoc.
Qed.

Lemma isfile_content (p : string) :
  os_path_isfile p = true -> exists content, fs !! p = Some (File content).
Proof.
  unfold os_path_isfile. destruct (fs !! p) as [[c |] |]; try discriminate.
  intros _. now exists c.
Qed.

Lemma replacer_missing (self : manager) (m : rematch) seen (w : world) :
  os_path_isfile (match_path m) = false ->
  replacer self m seen w
  = (inl (AssertionError [VStr (match_path m); VStr (str self)]), w).
Proof.
  intros Hf. unfold replacer. fold (match_path m). now rewrite Hf.
Qed.

(** On an existing file the closure returns, spawns nothing, and follows the
    size policy. *)
Lemma replacer_file (self : manager) (m : rematch) seen (w : world) content :
  fs !! match_path m = Some (File content) ->
  exists o seen' w',
    replacer self m seen w = (inr (o, seen'), w') /\
    spawned w' = spawned w /\
    threshold_rule (Hit m) o.
Proof.
  intros Hc. unfold replacer, threshold_rule. fold (match_path m).
  unfold os_path_isfile, st_size, open_read. rewrite Hc. cbn [negb].
  unfold MAX_FILE_SIZE, MAX_DATA_URI_SIZE, KB.
  destruct (Z.gtb_spec (Z.of_nat (String.length content)) (24 * 1024)) as [Hbig | Hsmall].
  - eexists _, _, _. split; [reflexivity | split; [reflexivity |]].
    exists content. split; [reflexivity |]. cbv zeta. split; [lia | reflexivity].
  - rewrite bind_ret. fold (data_uri_of (match_path m) content).
    destruct (Z.geb_spec (Z.of_nat (String.length (data_uri_of (match_path m) content)))
                         (32 * 1024)) as [Hlong | Hshort].
    + eexists _, _, _. split; [reflexivity | split; [reflexivity |]].
      exists content. split; [reflexivity |]. cbv zeta. split; [lia | reflexivity].
    + eexists _, _, _. split; [reflexivity | split; [reflexivity |]].
      exists content. split; [reflexivity |]. cbv zeta. split; [reflexivity | lia].
Qed.

Lemma warn_duplicates_returns (items : list (string * Z)) (w : world) :
  exists w', warn_duplicates items w = (inr tt, w') /\ spawned w' = spawned w.
Proof.
  revert w. induction items as [| [url count] items IH]; intros w.
  - now exists w.
  - cbn [warn_duplicates]. destruct (count >? 1).
    + destruct (IH (World (logged w ++ [LogRecord WARN "Inlined asset duplicated %dx: %s"
                                          [VInt count; VStr url]]) (spawned w)))
        as (w' & Hw & Hs).
      exists w'. split; [exact Hw | exact Hs].
    + exact (IH w).
Qed.

(** When every match refers to a file, the substitution goes through and
    each piece is treated by the size policy. *)
Lemma re_sub_files (self : manager) (ps : list piece) :
  (forall m, In (Hit m) ps -> os_path_isfile (match_path m) = true) ->
  forall seen w, exists outs seen' w',
    re_sub self ps seen w = (inr (glue outs, seen'), w') /\
    spawned w' = spawned w /\
    Forall2 threshold_rule ps outs.
Proof.
  induction ps as [| [s | m] ps IH]; intros Hfiles seen w.
  - exists [], seen, w. repeat split. constructor.
  - destruct (IH (fun m Hm => Hfiles m (or_intror Hm)) seen w)
      as (outs & seen' & w' & Hrun & Hsp & Hrule).
    exists (s :: outs), seen', w'. split; [| split; [exact Hsp |]].
    + cbn [re_sub]. now rewrite (bind_returns _ _ _ _ _ Hrun).
    + constructor; [reflexivity | exact Hrule].
  - destruct (isfile_content _ (Hfiles m (or_introl eq_refl))) as (content & Hc).
    destruct (replacer_file self m seen w content Hc) as (o & seen1 & w1 & Hrep & Hsp1 & Ho).
    destruct (IH (fun m' Hm => Hfiles m' (or_intror Hm)) seen1 w1)
      as (outs & seen' & w' & Hrun & Hsp & Hrule).
    exists (o :: outs), seen', w'. split; [| split].
    + cbn [re_sub]. rewrite (bind_returns _ _ _ _ _ Hrep). cbn [fst snd].
      now rewrite (bind_returns _ _ _ _ _ Hrun).
    + congruence.
    + constructor; assumption.
Qed.


(** The first match that does not refer to a file stops the substitution. *)
Lemma re_sub_asserts (self : manager) (ps : list piece) (m : rematch) :
  In (Hit m) ps -> os_path_isfile (match_path m) = false ->
  forall seen w, exists m' w',
    In (Hit m') ps /\ os_path_isfile (match_path m') = false /\
    re_sub self ps seen w
    = (inl (AssertionError [VStr (match_path m'); VStr (str self)]), w').
Proof.
  intros Hin Hmiss. induction ps as [| [s | m0] ps IH]; intros seen w.
  - destruct Hin.
  - destruct Hin as [Heq | Hin]; [discriminate |].
    destruct (IH Hin seen w) as (m' & w' & Hin' & Hf' & Hrun).
    exists m', w'. split; [now right | split; [exact Hf' |]].
    cbn [re_sub]. now rewrite (bind_raises _ _ _ _ _ Hrun).
  - destruct (os_path_isfile (match_path m0)) eqn:Hf0.
    + destruct (isfile_content _ Hf0) as (content & Hc).
      destruct (replacer_file self m0 seen w content Hc) as (o & seen1 & w1 & Hrep & _ & _).
      destruct Hin as [Heq | Hin]; [injection Heq as ->; congruence |].
      destruct (IH Hin seen1 w1) as (m' & w' & Hin' & Hf' & Hrun).
      exists m', w'. split; [now right | split; [exact Hf' |]].
      cbn [re_sub]. rewrite (bind_returns _ _ _ _ _ Hrep). cbn [fst snd].
      now rewrite (bind_raises _ _ _ _ _ Hrun).
    + exists m0, w. split; [now left | split; [exact Hf0 |]].
      cbn [re_sub]. now rewrite (bind_raises _ _ _ _ _ (replacer_missing self m0 seen w Hf0)).
Qed.

Lemma inline_images_files (self : manager) (css : string) (w : world) :
  let ps := static_url_scan (static_url_prefix (settings self)) css in
  (forall m, In (Hit m) ps -> os_path_isfile (match_path m) = true) ->
  exists outs w',
    inline_images self css w = (inr (glue outs), w') /\
    spawned w' = spawned w /\
    Forall2 threshold_rule ps outs.
Proof.
  intros ps Hfiles.
  destruct (re_sub_files self ps Hfiles ∅ w) as (outs & seen' & w1 & Hrun & Hsp1 & Hrule).
  destruct (warn_duplicates_returns (map_to_list seen') w1) as (w' & Hwarn & Hsp).
  exists outs, w'. split; [| split; [congruence | exact Hrule]].
  unfold inline_images. fold ps.
  rewrite (bind_returns _ _ _ _ _ Hrun). cbn [fst snd].
  now rewrite (bind_returns _ _ _ _ _ Hwarn).
Qed.



(** The match that stops the substitution is the first one, in the order of
    the subject, that does not refer to a file. *)
Lemma re_sub_asserts_first (self : manager) (ps : list piece) (m : rematch) :
  In (Hit m) ps -> os_path_isfile (match_path m) = false ->
  forall seen w, exists pre m' post w',
    ps = (pre ++ Hit m' :: post)%list /\
    (forall m0, In (Hit m0) pre -> os_path_isfile (match_path m0) = true) /\
    os_path_isfile (match_path m') = false /\
    re_sub self ps seen w
    = (inl (AssertionError [VStr (match_path m'); VStr (str self)]), w').
Proof.
  intros Hin Hmiss. induction ps as [| [s | m0] ps IH]; intros seen w.
  - destruct Hin.
  - destruct Hin as [Heq | Hin]; [discriminate |].
    destruct (IH Hin seen w) as (pre & m' & post & w' & Hsplit & Hpre & Hf' & Hrun).
    exists (Lit s :: pre), m', post, w'. split; [| split; [| split; [exact Hf' |]]].
    + cbn [app]. now rewrite Hsplit.
    + intros m1 [Heq | Hin1]; [discriminate | exact (Hpre m1 Hin1)].
    + cbn [re_sub]. now rewrite (bind_raises _ _ _ _ _ Hrun).
  - destruct (os_path_isfile (match_path m0)) eqn:Hf0.
    + destruct (isfile_content _ Hf0) as (content & Hc).
      destruct (replacer_file self m0 seen w content Hc) as (o & seen1 & w1 & Hrep & _ & _).
      destruct Hin as [Heq | Hin]; [injection Heq as ->; congruence |].
      destruct (IH Hin seen1 w1) as (pre & m' & post & w' & Hsplit & Hpre & Hf' & Hrun).
      exists (Hit m0 :: pre), m', post, w'. split; [| split; [| split; [exact Hf' |]]].
      * cbn [app]. now rewrite Hsplit.
      * intros m1 [Heq | Hin1]; [injection Heq as <-; exact Hf0 | exact (Hpre m1 Hin1)].
      * cbn [re_sub]. rewrite (bind_returns _ _ _ _ _ Hrep). cbn [fst snd].
        now rewrite (bind_raises _ _ _ _ _ Hrun).
    + exists [], m0, ps, w. split; [reflexivity | split; [| split; [exact Hf0 |]]].
      * intros m1 [].
      * cbn [re_sub].
        now rewrite (bind_raises _ _ _ _ _ (replacer_missing self m0 seen w Hf0)).
Qed.

(** C8, as the code has it.  A match that does not refer to an existing file
    makes the pass fail, and no text is returned: the pass raises the
    [AssertionError] of the first such match in the order of the subject
    (every match before it refers to a file), carrying its resolved path and
    the manager. *)
Theorem inline_images_missing_file_asserts (self : manager) (css : string)
    (w : world) (m : rematch) :
  In (Hit m) (static_url_scan (static_url_prefix (settings self)) css) ->
  os_path_isfile (match_path m) = false ->
  exists pre m' post w',
    static_url_scan (static_url_prefix (settings self)) css
    = (pre ++ Hit m' :: post)%list /\
    (forall m0, In (Hit m0) pre -> os_path_isfile (match_path m0) = true) /\
    os_path_isfile (match_path m') = false /\
    inline_images self css w
    = (inl (AssertionError [VStr (match_path m'); VStr (str self)]), w').
Proof.
  intros Hin Hmiss.
  destruct (re_sub_asserts_first self _ m Hin Hmiss ∅ w)
    as (pre & m' & post & w' & Hsplit & Hpre & Hf' & Hrun).
  exists pre, m', post, w'.
  split; [exact Hsplit | split; [exact Hpre | split; [exact Hf' |]]].
  unfold inline_images. now rewrite (bind_raises _ _ _ _ _ Hrun).
Qed.




(** C10. A match on an eligible file whose type [guess_type] does not know
    is inlined all the same, and the result carries the URI
    [data:None;base64,<payload>] between the kept [url(] and [)] parts. *)
Theorem inline_images_mime_none (self : manager) (css : string) (w : world)
    (pre post : list piece) (m : rematch) (content : string) :
  static_url_scan (static_url_prefix (settings self)) css = (pre ++ Hit m :: post)%list ->
  (forall m', In (Hit m') (static_url_scan (static_url_prefix (settings self)) css) ->
              os_path_isfile (match_path m') = true) ->
  fs !! match_path m = Some (File content) ->
  guess_type (match_path m) = None ->
  Z.of_nat (String.length content) <= 24 * 1024 ->
  Z.of_nat (String.length ("data:None;base64," +:+ b64encode content)) < 32 * 1024 ->
  exists o1 o2 w',
    inline_images self css w
    = (inr (o1 +:+ (before m +:+ ("data:None;base64," +:+ b64encode content) +:+ after m)
               +:+ o2), w').
Proof.
  intros Hscan Hfiles Hc Hmime Hsize Hlen.
  destruct (inline_images_files self css w Hfiles) as (outs & w' & Hrun & _ & Hrule).
  rewrite Hscan in Hrule.
  apply Forall2_app_inv_l in Hrule as (outs1 & outs2 & _ & Hrest & ->).
  inversion Hrest as [| p o ps outs' Hm _]; subst.
  destruct Hm as (content' & Hc' & Hin & _).
  assert (content' = content) by congruence. subst content'.
  assert (Huri : data_uri_of (match_path m) content
                 = "data:None;base64," +:+ b64encode content)
    by (unfold data_uri_of; now rewrite Hmime).
  rewrite Huri in Hin.
  exists (glue outs1), (glue outs'), w'.
  rewrite Hrun, glue_app. cbn [glue fold_right].
  rewrite (Hin (conj Hsize Hlen)). reflexivity.
Qed.
End Inlining.

Section Effects.
Context {E : Env}.

Lemma raises_only_bind {A B} (P : exn -> Prop) (m : M A) (k : A -> M B) :
  raises_only P m -> (forall a, raises_only P (k a)) -> raises_only P (bind m k).
Proof.
  intros Hm Hk w e w'. unfold bind.
  destruct (m w) as [[e1 | a] w1] eqn:Hmw; intros Hrun.
  - injection Hrun as <- <-. exact (Hm _ _ _ Hmw).
  - exact (Hk a _ _ _ Hrun).
Qed.

Lemma raises_only_ret {A} (P : exn -> Prop) (a : A) : raises_only P (ret a).
Proof. intros w e w' Hrun. discriminate Hrun. Qed.

Lemma raises_only_raise {A} (P : exn -> Prop) (e : exn) :
  P e -> raises_only P (@raise A e).
Proof. intros He w e' w' Hrun. injection Hrun as <- <-. exact He. Qed.

Lemma raises_only_logging (P : exn -> Prop) l f a : raises_only P (logging l f a).
Proof. intros w e w' Hrun. discriminate Hrun. Qed.

Lemma spawns_onward_bind {A B} (m : M A) (k : A -> M B) :
  spawns_onward m -> (forall a, spawns_onward (k a)) -> spawns_onward (bind m k).
Proof.
  intros Hm Hk w r w'. unfold bind.
  destruct (m w) as [[e1 | a] w1] eqn:Hmw; intros Hrun.
  - injection Hrun as <- <-. exact (Hm _ _ _ Hmw).
  - destruct (Hm _ _ _ Hmw) as (more1 & H1).
    destruct (Hk a _ _ _ Hrun) as (more2 & H2).
    exists (more1 ++ more2)%list. rewrite H2, H1. now rewrite <- app_assoc.
Qed.

Lemma spawns_onward_ret {A} (a : A) : spawns_onward (ret a).
Proof. intros w r w' Hrun. injection Hrun as <- <-. exists []. now rewrite app_nil_r. Qed.

Lemma spawns_onward_raise {A} (e : exn) : spawns_onward (@raise A e).
Proof. intros w r w' Hrun. injection Hrun as <- <-. exists []. now rewrite app_nil_r. Qed.

Lemma spawns_onward_logging l f a : spawns_onward (logging l f a).
Proof. intros w r w' Hrun. injection Hrun as <- <-. exists []. cbn. now rewrite app_nil_r. Qed.

Lemma run_proc_raises (cmd : list string) (stdin : option string) :
  raises_only not_dependency_error (run_proc cmd stdin).
Proof.
  intros w e w'. destruct (Z.eq_dec (returncode (popen cmd stdin)) 0) as [Hz | Hnz].
  - rewrite (run_proc_zero cmd stdin w Hz). discriminate.
  - rewrite (run_proc_nonzero cmd stdin w Hnz). intros Hrun.
    injection Hrun as <- <-. intros src missing. discriminate.
Qed.

Lemma run_proc_spawns_once (cmd : list string) (stdin : option string) (w : world) :
  spawned (snd (run_proc cmd stdin w)) = (spawned w ++ [(cmd, stdin)])%list.
Proof.
  destruct (Z.eq_dec (returncode (popen cmd stdin)) 0) as [Hz | Hnz].
  - now rewrite (run_proc_zero cmd stdin w Hz).
  - now rewrite (run_proc_nonzero cmd stdin w Hnz).
Qed.

Lemma run_proc_spawns (cmd : list string) (stdin : option string) :
  spawns_onward (run_proc cmd stdin).
Proof.
  intros w r w' Hrun. exists [(cmd, stdin)].
  pose proof (run_proc_spawns_once cmd stdin w) as H. now rewrite Hrun in H.
Qed.

Lemma open_read_raises (p : string) : raises_only not_dependency_error (open_read p).
Proof.
  unfold open_read. destruct (fs !! p) as [[c |] |].
  - apply raises_only_ret.
  - apply raises_only_raise. intros src missing. discriminate.
  - apply raises_only_raise. intros src missing. discriminate.
Qed.

Lemma open_read_spawns (p : string) : spawns_onward (open_read p).
Proof.
  unfold open_read. destruct (fs !! p) as [[c |] |];
    [apply spawns_onward_ret | apply spawns_onward_raise | apply spawns_onward_raise].
Qed.

Lemma replacer_raises (self : manager) (m : rematch) seen :
  raises_only not_dependency_error (replacer self m seen).
Proof.
  unfold replacer.
  destruct (negb _); [apply raises_only_raise; intros src missing; discriminate |].
  destruct (_ >? _).
  - apply raises_only_bind; [apply raises_only_logging | intros _; apply raises_only_ret].
  - apply raises_only_bind; [apply open_read_raises |].
    intros content. destruct (_ >=? _).
    + apply raises_only_bind; [apply raises_only_logging | intros _; apply raises_only_ret].
    + apply raises_only_ret.
Qed.

Lemma replacer_spawns (self : manager) (m : rematch) seen :
  spawns_onward (replacer self m seen).
Proof.
  unfold replacer.
  destruct (negb _); [apply spawns_onward_raise |].
  destruct (_ >? _).
  - apply spawns_onward_bind; [apply spawns_onward_logging | intros _; apply spawns_onward_ret].
  - apply spawns_onward_bind; [apply open_read_spawns |].
    intros content. destruct (_ >=? _).
    + apply spawns_onward_bind; [apply spawns_onward_logging | intros _; apply spawns_onward_ret].
    + apply spawns_onward_ret.
Qed.

Lemma re_sub_raises (self : manager) (ps : list piece) :
  forall seen, raises_only not_dependency_error (re_sub self ps seen).
Proof.
  induction ps as [| [s | m] ps IH]; intros seen; cbn [re_sub].
  - apply raises_only_ret.
  - apply raises_only_bind; [apply IH | intros r; apply raises_only_ret].
  - apply raises_only_bind; [apply replacer_raises |].
    intros x. apply raises_only_bind; [apply IH | intros r; apply raises_only_ret].
Qed.

Lemma re_sub_spawns (self : manager) (ps : list piece) :
  forall seen, spawns_onward (re_sub self ps seen).
Proof.
  induction ps as [| [s | m] ps IH]; intros seen; cbn [re_sub].
  - apply spawns_onward_ret.
  - apply spawns_onward_bind; [apply IH | intros r; apply spawns_onward_ret].
  - apply spawns_onward_bind; [apply replacer_spawns |].
    intros x. apply spawns_onward_bind; [apply IH | intros r; apply spawns_onward_ret].
Qed.

Lemma warn_duplicates_raises (items : list (string * Z)) :
  raises_only not_dependency_error (warn_duplicates items).
Proof.
  induction items as [| [url count] items IH]; cbn [warn_duplicates].
  - apply raises_only_ret.
  - apply raises_only_bind; [| intros _; exact IH].
    destruct (count >? 1); [apply raises_only_logging | apply raises_only_ret].
Qed.

Lemma warn_duplicates_spawns (items : list (string * Z)) :
  spawns_onward (warn_duplicates items).
Proof.
  induction items as [| [url count] items IH]; cbn [warn_duplicates].
  - apply spawns_onward_ret.
  - apply spawns_onward_bind; [| intros _; exact IH].
    destruct (count >? 1); [apply spawns_onward_logging | apply spawns_onward_ret].
Qed.

Lemma inline_images_raises (self : manager) (css : string) :
  raises_only not_dependency_error (inline_images self css).
Proof.
  unfold inline_images. apply raises_only_bind; [apply re_sub_raises |].
  intros r. apply raises_only_bind; [apply warn_duplicates_raises |].
  intros _. apply raises_only_ret.
Qed.

Lemma inline_images_spawns (self : manager) (css : string) :
  spawns_onward (inline_images self css).
Proof.
  unfold inline_images. apply spawns_onward_bind; [apply re_sub_spawns |].
  intros r. apply spawns_onward_bind; [apply warn_duplicates_spawns |].
  intros _. apply spawns_onward_ret.
Qed.

(** The CSS stage on pre-supplied text does not look at the declared assets. *)
Lemma css_do_compile_supplied_raises (self : manager) (css : string) (skip : bool) :
  raises_only not_dependency_error (css_do_compile self (Kwargs (Some css) skip)).
Proof.
  unfold css_do_compile. cbn [css_input skip_inline_images].
  apply raises_only_bind; [apply raises_only_ret |].
  intros css1. apply raises_only_bind; [| intros css2; apply run_proc_raises].
  destruct (negb skip); [apply inline_images_raises | apply raises_only_ret].
Qed.

Lemma css_do_compile_supplied_spawns (self : manager) (css : string) (skip : bool) :
  spawns_onward (css_do_compile self (Kwargs (Some css) skip)).
Proof.
  unfold css_do_compile. cbn [css_input skip_inline_images].
  apply spawns_onward_bind; [apply spawns_onward_ret |].
  intros css1. apply spawns_onward_bind; [| intros css2; apply run_proc_spawns].
  destruct (negb skip); [apply inline_images_spawns | apply spawns_onward_ret].
Qed.

(** Whatever the file system holds, SASS compilation starts by spawning the
    transpiler on the relative URLs as declared, and no outcome of it is a
    dependency error: the declared assets are never resolved or checked. *)
Lemma sass_never_resolves (self : manager) (kw : kwargs) (w : world) :
  exists r w' more,
    sass_do_compile self kw w = (r, w') /\
    spawned w' = (spawned w ++ (sass_cmd self, None) :: more)%list /\
    (forall e, r = inl e -> not_dependency_error e).
Proof.
  destruct (sass_do_compile self kw w) as [r w'] eqn:Hrun.
  assert (Hraises : raises_only not_dependency_error (sass_do_compile self kw)).
  { unfold sass_do_compile. apply raises_only_bind; [apply run_proc_raises |].
    intros output. apply css_do_compile_supplied_raises. }
  unfold sass_do_compile in Hrun. fold (sass_cmd self) in Hrun.
  unfold bind in Hrun.
  pose proof (run_proc_spawns_once (sass_cmd self) None w) as Hfirst.
  destruct (run_proc (sass_cmd self) None w) as [[e1 | output] w1] eqn:Hproc.
  - injection Hrun as <- <-. exists (inl e1), w1, []. split; [reflexivity | split].
    + exact Hfirst.
    + intros e He. injection He as <-.
      exact (run_proc_raises _ _ _ _ _ Hproc).
  - destruct (css_do_compile_supplied_spawns self output false _ _ _ Hrun) as (more & Hmore).
    exists r, w', more. split; [reflexivity | split].
    + rewrite Hmore. cbn [snd] in Hfirst. rewrite Hfirst. now rewrite <- app_assoc.
    + intros e ->. apply (Hraises w e w').
      unfold sass_do_compile. fold (sass_cmd self).
      now rewrite (bind_returns _ _ _ _ _ Hproc).
Qed.
End Effects.

(** * The digest and the encoding on known values *)

Section Vectors.

(** The test suite of RFC 1321. *)
Example md5_hex_empty : md5_hex "" = "d41d8cd98f00b204e9800998ecf8427e".
Proof. vm_compute. reflexivity. Qed.

Example md5_hex_abc : md5_hex "abc" = "900150983cd24fb0d6963f7d28e17f72".
Proof. vm_compute. reflexivity. Qed.

Example md5_hex_two_blocks :
  md5_hex "12345678901234567890123456789012345678901234567890123456789012345678901234567890"
  = "57edf4a22be3c955ac49da2e2107b67a".
Proof. vm_compute. reflexivity. Qed.

(** Feeding a hash object piecewise is feeding it the concatenation. *)
Example md5_update_twice :
  md5_hexdigest (md5_update (md5_update md5_new "a") "bc") = md5_hex "abc".
Proof. reflexivity. Qed.

(** The three padding cases of base64. *)
Example b64encode_paddings :
  (b64encode "Man", b64encode "Ma", b64encode "M") = ("TWFu", "TWE=", "TQ==").
Proof. vm_compute. reflexivity. Qed.
End Vectors.

(** * The sample scanner cuts a subject without losing text *)

Section Scanner.

Lemma strip_prefix_app (p s r : string) :
  strip_prefix p s = Some r -> s = p +:+ r.
Proof.
  revert s. induction p as [| a p IH]; intros s Hs.
  - injection Hs as ->. reflexivity.
  - destruct s as [| b s]; [discriminate |]. cbn [strip_prefix] in Hs.
    destruct (Ascii.eqb a b) eqn:Hab; [| discriminate].
    apply Ascii.eqb_eq in Hab. subst b.
    change (String a s = String a (p +:+ r)). now rewrite (IH s Hs).
Qed.

Lemma strip_quote_app (s q r : string) :
  strip_quote s = (q, r) -> s = q +:+ r.
Proof.
  unfold strip_quote. destruct s as [| c s].
  - intros Hs. injection Hs as <- <-. reflexivity.
  - destruct (is_quote c); intros Hs; injection Hs as <- <-; reflexivity.
Qed.

Lemma take_path_app (s p r : string) :
  take_path s = (p, r) -> s = p +:+ r.
Proof.
  revert p r. induction s as [| c s IH]; intros p r Hs.
  - injection Hs as <- <-. reflexivity.
  - cbn [take_path] in Hs.
    destruct (is_quote c || Ascii.eqb c ")"%char).
    + injection Hs as <- <-. reflexivity.
    + destruct (take_path s) as [p1 r1]. injection Hs as <- <-.
      change (String c s = String c (p1 +:+ r1)). now rewrite (IH p1 r1 eq_refl).
Qed.

Lemma match_here_app (prefix s : string) (m : rematch) (rest : string) :
  match_here prefix s = Some (m, rest) -> s = group0 m +:+ rest.
Proof.
  unfold match_here.
  destruct (strip_prefix "url(" s) as [s1 |] eqn:H1; [| discriminate].
  destruct (strip_quote s1) as [q1 s2] eqn:H2.
  destruct (strip_prefix prefix s2) as [s3 |] eqn:H3; [| discriminate].
  destruct (take_path s3) as [rel s4] eqn:H4.
  destruct (strip_quote s4) as [q2 s5] eqn:H5.
  destruct rel as [| c rel]; [discriminate |].
  destruct (strip_prefix ")" s5) as [s6 |] eqn:H6; [| discriminate].
  intros Hm. injection Hm as <- <-. cbn [group0].
  rewrite (strip_prefix_app _ _ _ H1), (strip_quote_app _ _ _ H2),
    (strip_prefix_app _ _ _ H3), (take_path_app _ _ _ H4),
    (strip_quote_app _ _ _ H5), (strip_prefix_app _ _ _ H6).
  now rewrite !string_app_assoc.
Qed.

Lemma sample_scan_from_covers (prefix : string) (fuel : nat) :
  forall lit s, glue (map raw (sample_scan_from fuel prefix lit s)) = lit +:+ s.
Proof.
  induction fuel as [| fuel IH]; intros lit s; cbn [sample_scan_from].
  - cbn. apply string_app_nil_r.
  - destruct (match_here prefix s) as [[m rest] |] eqn:Hm.
    + cbn [map raw glue fold_right]. fold (glue (map raw (sample_scan_from fuel prefix "" rest))).
      rewrite IH, (match_here_app _ _ _ _ Hm). reflexivity.
    + destruct s as [| c s].
      * reflexivity.
      * rewrite IH, string_app_assoc. reflexivity.
Qed.

(** The pieces of the sample scanner, put back together, are the subject. *)
Lemma sample_scan_covers (prefix s : string) :
  glue (map raw (sample_scan prefix s)) = s.
Proof. unfold sample_scan. now rewrite sample_scan_from_covers. Qed.
End Scanner.

(** * The properties on the sample environment *)

Section Samples.
#[local] Existing Instance sample_env.

Lemma needs_compile_iff_stale_sample :
  is_Some (blocks sample_manifest !! get_hash sample_css) /\
  exists b w',
    needs_compile sample_css sample_manifest sample_manifest w0 = (inr b, w') /\
    spawned w' = spawned w0 /\
    (b = false <-> up_to_date sample_css sample_manifest sample_manifest) /\
    (b = true <-> ~ up_to_date sample_css sample_manifest sample_manifest).
Proof.
  assert (Hin : is_Some (blocks sample_manifest !! get_hash sample_css))
    by (vm_compute; eauto).
  split; [exact Hin |].
  exact (proj1 (needs_compile_iff_stale sample_css sample_manifest sample_manifest w0) Hin).
Defined.

Lemma run_proc_exit_status_sample :
  returncode (popen ["sass"; "x.scss"] None) = 0 /\
  run_proc ["sass"; "x.scss"] None w0
  = (inr "s { }",
     World [LogRecord WARN ("%s stderr:" +:+ nl +:+ "%s")
                      [VStr "sass"; VStr "DEPRECATION WARNING"]]
           [(["sass"; "x.scss"], None)]) /\
  returncode (popen ["cc"] None) <> 0 /\
  run_proc ["cc"] None w0
  = (inl (CompileError ["cc"] "command not found"), World [] [(["cc"], None)]).
Proof.
  pose proof (run_proc_exit_status ["sass"; "x.scss"] None w0) as [Hzero _].
  pose proof (run_proc_exit_status ["cc"] None w0) as [_ Hfail].
  assert (H0 : returncode (popen ["sass"; "x.scss"] None) = 0) by reflexivity.
  assert (H1 : returncode (popen ["cc"] None) <> 0) by (vm_compute; discriminate).
  split; [exact H0 | split; [exact (Hzero H0) | split; [exact H1 | exact (Hfail H1)]]].
Defined.

Lemma get_paths_all_or_missing_sample :
  (exists p, In p (static_paths (sample_manager JSCompiler ["gone.js"; "a.less"; "lost.js"])) /\
             os_path_isfile p = false) /\
  get_paths (sample_manager JSCompiler ["gone.js"; "a.less"; "lost.js"]) w0
  = (inl (DependencyError "templates/base.html" "static/gone.js,static/lost.js"), w0) /\
  (forall p, In p (static_paths sample_less) -> os_path_isfile p = true) /\
  get_paths sample_less w0 = (inr ["static/a.less"; "static/b.less"], w0).
Proof.
  pose proof (get_paths_all_or_missing
                (sample_manager JSCompiler ["gone.js"; "a.less"; "lost.js"]) w0)
    as (_ & _ & Hmissing).
  pose proof (get_paths_all_or_missing sample_less w0) as (_ & Hall & _).
  assert (Hex : exists p,
             In p (static_paths (sample_manager JSCompiler ["gone.js"; "a.less"; "lost.js"])) /\
             os_path_isfile p = false)
    by (exists "static/gone.js"; split; [now left | reflexivity]).
  assert (Hfiles : forall p, In p (static_paths sample_less) -> os_path_isfile p = true)
    by each_path.
  split; [exact Hex | split; [exact (Hmissing Hex) | split; [exact Hfiles | exact (Hall Hfiles)]]].
Defined.

Lemma versions_of_reset_print :
  versions_of sample_manifest (static_paths sample_reset_print) [md5_hex ""; md5_hex ""].
Proof.
  repeat constructor; eexists; (split; [vm_compute; reflexivity | reflexivity]).
Defined.

Lemma versions_of_print_reset :
  versions_of sample_manifest (static_paths sample_print_reset) [md5_hex ""; md5_hex ""].
Proof.
  repeat constructor; eexists; (split; [vm_compute; reflexivity | reflexivity]).
Defined.

Lemma content_hash_folds_versions_sample :
  (forall p, In p (static_paths sample_reset_print) -> os_path_isfile p = true) /\
  (forall p, In p (static_paths sample_print_reset) -> os_path_isfile p = true) /\
  versions_of sample_manifest (static_paths sample_reset_print) [md5_hex ""; md5_hex ""] /\
  versions_of sample_manifest (static_paths sample_print_reset) [md5_hex ""; md5_hex ""] /\
  get_current_content_hash sample_reset_print sample_manifest w0
  = (inr (md5_hex (String.concat "" [md5_hex ""; md5_hex ""])), w0) /\
  (String.concat "" [md5_hex ""; md5_hex ""] = String.concat "" [md5_hex ""; md5_hex ""] ->
   fst (get_current_content_hash sample_reset_print sample_manifest w0)
   = fst (get_current_content_hash sample_print_reset sample_manifest w0)).
Proof.
  assert (H1 : forall p, In p (static_paths sample_reset_print) -> os_path_isfile p = true)
    by each_path.
  assert (H2 : forall p, In p (static_paths sample_print_reset) -> os_path_isfile p = true)
    by each_path.
  split; [exact H1 | split; [exact H2 |]].
  split; [exact versions_of_reset_print | split; [exact versions_of_print_reset |]].
  exact (content_hash_folds_versions sample_reset_print sample_print_reset
           sample_manifest sample_manifest _ _ w0 w0 H1 H2
           versions_of_reset_print versions_of_print_reset).
Defined.

(** C7, against the claim as stated: the two blocks list the same assets in
    different orders, and get the same content hash. *)
Lemma content_hash_reorder_unchanged :
  rel_urls sample_reset_print <> rel_urls sample_print_reset /\
  Permutation (rel_urls sample_reset_print) (rel_urls sample_print_reset) /\
  get_current_content_hash sample_reset_print sample_manifest w0
  = (inr "020eb29b524d7ba672d9d48bc72db455", w0) /\
  get_current_content_hash sample_print_reset sample_manifest w0
  = (inr "020eb29b524d7ba672d9d48bc72db455", w0).
Proof.
  split; [discriminate | split; [apply perm_swap |]].
  split; vm_compute; reflexivity.
Qed.

(** Where the versions differ, the order does show in the hash. *)
Lemma content_hash_reorder_differs :
  fst (get_current_content_hash (sample_manager LessCompiler ["a.less"; "b.less"])
                                sample_manifest w0)
  <> fst (get_current_content_hash (sample_manager LessCompiler ["b.less"; "a.less"])
                                   sample_manifest w0).
Proof. vm_compute. discriminate. Qed.


(** C4, on the code: a SASS block whose only declared asset does not exist.
    [get_paths] would raise the dependency error, and the LESS compiler does
    raise it before spawning anything; the SASS compiler never resolves its
    paths: it spawns the transpiler on the relative URL as declared and goes
    on to the CSS stage. *)
Theorem sass_spawns_without_resolving :
  get_paths sample_sass_missing w0
  = (inl (DependencyError "templates/base.html" "static/missing.scss"), w0) /\
  less_do_compile sample_less_missing no_kwargs w0
  = (inl (DependencyError "templates/base.html" "static/missing.less"), w0) /\
  sass_do_compile sample_sass_missing no_kwargs w0
  = (inr "s { }",
     World [LogRecord WARN ("%s stderr:" +:+ nl +:+ "%s")
                      [VStr "sass"; VStr "DEPRECATION WARNING"]]
           [(["sass"; "--compass"; "--trace"; "-l"; "missing.scss"], None);
            (["java"; "-jar"; "yui.jar"; "--type"; "css"; "--line-break"; "160"],
             Some "s { }")]).
Proof. repeat split; vm_compute; reflexivity. Qed.


(** What the pass makes of [css_sizes]: the small image is inlined, the
    25 KiB one and the 24 KiB one (whose payload alone has 32 KiB) are not. *)
Lemma inline_images_sizes_result :
  fst (inline_images sample_css css_sizes w0)
  = inr ("a{b:url(data:image/png;base64,UE5HZGF0YQ==)} "
         +:+ "c{d:url(/s/img/big.png)} e{f:url(/s/img/edge.png)}").
Proof. vm_compute. reflexivity. Qed.

(** C8, against the claim as stated: the reference does not resolve to a
    file, and the pass raises [AssertionError], not [DependencyError]. *)
Lemma inline_images_missing_is_assertion :
  In (Hit nope_match) (static_url_scan (static_url_prefix (settings sample_css)) css_nope) /\
  os_path_isfile (match_path nope_match) = false /\
  inline_images sample_css css_nope w0
  = (inl (AssertionError [VStr "static/img/nope.png"; VStr "<block1 templates/base.html>"]), w0) /\
  (forall src missing,
      fst (inline_images sample_css css_nope w0) <> inl (DependencyError src missing)).
Proof.
  split; [vm_compute; tauto |].
  split; [vm_compute; reflexivity |].
  split; [vm_compute; reflexivity |].
  intros src missing. vm_compute. discriminate.
Qed.

Lemma inline_images_missing_file_asserts_sample :
  In (Hit nope2_match)
     (static_url_scan (static_url_prefix (settings sample_css)) css_two_missing) /\
  os_path_isfile (match_path nope2_match) = false /\
  exists pre m' post w',
    static_url_scan (static_url_prefix (settings sample_css)) css_two_missing
    = (pre ++ Hit m' :: post)%list /\
    (forall m0, In (Hit m0) pre -> os_path_isfile (match_path m0) = true) /\
    os_path_isfile (match_path m') = false /\
    inline_images sample_css css_two_missing w0
    = (inl (AssertionError [VStr (match_path m'); VStr (str sample_css)]), w').
Proof.
  assert (H1 : In (Hit nope2_match)
                  (static_url_scan (static_url_prefix (settings sample_css))
                                   css_two_missing))
    by (vm_compute; tauto).
  assert (H2 : os_path_isfile (match_path nope2_match) = false) by reflexivity.
  split; [exact H1 | split; [exact H2 |]].
  exact (inline_images_missing_file_asserts sample_css css_two_missing w0 nope2_match H1 H2).
Defined.

(** With two references to files that do not exist, the error names the
    first one, after the existing image before it has been inlined. *)
Lemma inline_images_two_missing_result :
  static_url_scan (static_url_prefix (settings sample_css)) css_two_missing
  = [Lit "a{b:"; Hit dot_match; Lit "} c{d:"; Hit nope1_match; Lit "} e{f:";
     Hit nope2_match; Lit "}"] /\
  os_path_isfile (match_path nope1_match) = false /\
  os_path_isfile (match_path nope2_match) = false /\
  inline_images sample_css css_two_missing w0
  = (inl (AssertionError [VStr "static/img/nope1.png";
                          VStr "<block1 templates/base.html>"]), w0).
Proof. repeat split; vm_compute; reflexivity. Qed.


Lemma inline_images_mime_none_sample :
  static_url_scan (static_url_prefix (settings sample_css)) css_glyph
  = ([Lit "c{d:"] ++ Hit glyph_match :: [Lit "}"])%list /\
  guess_type (match_path glyph_match) = None /\
  exists o1 o2 w',
    inline_images sample_css css_glyph w0
    = (inr (o1 +:+ (before glyph_match +:+ ("data:None;base64," +:+ b64encode "glyph")
                      +:+ after glyph_match) +:+ o2), w').
Proof.
  assert (H1 : static_url_scan (static_url_prefix (settings sample_css)) css_glyph
               = ([Lit "c{d:"] ++ Hit glyph_match :: [Lit "}"])%list)
    by (vm_compute; reflexivity).
  assert (H2 : guess_type (match_path glyph_match) = None) by (vm_compute; reflexivity).
  split; [exact H1 | split; [exact H2 |]].
  apply (inline_images_mime_none sample_css css_glyph w0 _ _ _ "glyph" H1).
  - hits_are_files.
  - vm_compute. reflexivity.
  - exact H2.
  - vm_compute. discriminate.
  - vm_compute. reflexivity.
Defined.

(** The style sheet with the unknown type, as the pass returns it. *)
Lemma inline_images_glyph_result :
  fst (inline_images sample_css css_glyph w0)
  = inr "c{d:url('data:None;base64,Z2x5cGg=')}".
Proof. vm_compute. reflexivity. Qed.
End Samples.

(** * Further properties of the compilers *)

Section Diagnostics.
Context {E : Env}.

(** X1. [needs_compile] tells its three reasons apart in the log: on a block
    of the current manifest it spawns nothing; it logs nothing when it
    answers [False]; when it answers [True] it logs exactly one warning,
    "New/unknown hash" for a block the cache does not know, "Contents
    changed" for a version that differs, "Missing compiled asset" for an
    unchanged block whose output is not on disk. *)
Theorem needs_compile_diagnostics (self : manager) (cached current : manifest)
    (w : world) (cur : entry) :
  blocks current !! get_hash self = Some cur ->
  exists b w',
    needs_compile self cached current w = (inr b, w') /\
    spawned w' = spawned w /\
    (b = false -> logged w' = logged w) /\
    (b = true ->
     (blocks cached !! get_hash self = None /\
      logged w' = (logged w ++ [warns_unknown self])%list) \/
     (exists old, blocks cached !! get_hash self = Some old /\
                  version old <> version cur /\
                  logged w' = (logged w ++ [warns_changed self])%list) \/
     (exists old, blocks cached !! get_hash self = Some old /\
                  version old = version cur /\
                  os_path_exists (get_compiled_path self) = false /\
                  logged w' = (logged w ++ [warns_missing_output self])%list)).
Proof.
  intros Hcur. unfold needs_compile. rewrite Hcur.
  destruct (blocks cached !! get_hash self) as [old |] eqn:Hold.
  - destruct (String.eqb (version old) (version cur)) eqn:Hv.
    + apply String.eqb_eq in Hv.
      destruct (os_path_exists (get_compiled_path self)) eqn:Hx; cbn [negb].
      * exists false, w. repeat split; [discriminate].
      * eexists true, _. split; [reflexivity |]. split; [reflexivity |].
        split; [discriminate |]. intros _. right. right.
        exists old. repeat split; assumption.
    + apply String.eqb_neq in Hv.
      eexists true, _. split; [reflexivity |]. split; [reflexivity |].
      split; [discriminate |]. intros _. right. left.
      exists old. repeat split. exact Hv.
  - eexists true, _. split; [reflexivity |]. split; [reflexivity |].
    split; [discriminate |]. intros _. left. split; reflexivity.
Qed.
End Diagnostics.

Section Pipeline.
Context {E : Env}.

Lemma run_proc_outcome (cmd : list string) (stdin : option string) (w : world) :
  fst (run_proc cmd stdin w) = outcome cmd (popen cmd stdin).
Proof.
  unfold outcome. destruct (Z.eq_dec (returncode (popen cmd stdin)) 0) as [Hz | Hnz].
  - rewrite (run_proc_zero cmd stdin w Hz), Hz. reflexivity.
  - rewrite (run_proc_nonzero cmd stdin w Hnz).
    destruct (returncode (popen cmd stdin) =? 0) eqn:Hb; [| reflexivity].
    apply Z.eqb_eq in Hb. contradiction.
Qed.

Lemma get_paths_raises (self : manager) (w : world) (p : string) :
  In p (static_paths self) -> os_path_isfile p = false ->
  get_paths self w =
    (inl (DependencyError (src_path self) (String.concat "," (missing_paths self))), w).
Proof.
  intros Hin Hp.
  assert (Hf : forallb os_path_isfile (static_paths self) = false)
    by (apply forallb_isfile_false; now exists p).
  unfold get_paths. fold (static_paths self). now rewrite Hf.
Qed.



Lemma hash_paths_unknown (mf : manifest) (paths : list string) (p : string) :
  In p paths -> assets mf !! p = None ->
  forall h w, hash_paths mf paths h w = (inl (AssertionError []), w).
Proof.
  intros Hin Hp. induction paths as [| q paths IH]; intros h w; [destruct Hin |].
  cbn [hash_paths]. destruct (assets mf !! q) as [e |] eqn:Hq.
  - destruct Hin as [-> | Hin]; [congruence | exact (IH Hin _ w)].
  - reflexivity.
Qed.

(** X2. [get_current_content_hash] on resolvable paths of which one is not
    in [manifest['assets']]: the [assert] in the loop fails, the call raises
    [AssertionError] and returns no digest. *)
Theorem content_hash_unknown_asset (self : manager) (mf : manifest) (w : world)
    (p : string) :
  (forall q, In q (static_paths self) -> os_path_isfile q = true) ->
  In p (static_paths self) ->
  assets mf !! p = None ->
  get_current_content_hash self mf w = (inl (AssertionError []), w).
Proof.
  intros Hfiles Hin Hp. unfold get_current_content_hash.
  rewrite (bind_returns _ _ _ _ _ (get_paths_returns self w Hfiles)).
  now rewrite (bind_raises _ _ _ _ _ (hash_paths_unknown mf _ p Hin Hp md5_new w)).
Qed.

(** X3. A missing file comes before a missing manifest entry: when a declared
    asset is not a file, [get_current_content_hash] raises the
    [DependencyError] of [get_paths], whatever the manifest holds. *)
Theorem content_hash_missing_file (self : manager) (mf : manifest) (w : world)
    (p : string) :
  In p (static_paths self) ->
  os_path_isfile p = false ->
  get_current_content_hash self mf w =
    (inl (DependencyError (src_path self) (String.concat "," (missing_paths self))), w).
Proof.
  intros Hin Hp. unfold get_current_content_hash.
  now rewrite (bind_raises _ _ _ _ _ (get_paths_raises self w p Hin Hp)).
Qed.

(** X4. JS compilation over existing assets is one call of the Closure
    compiler, with one [--js <path>] pair per resolved path in declared
    order: exactly that process is spawned, its standard output is returned
    verbatim when it exits with status 0, and a nonzero status raises
    [CompileError] with the command and the captured standard error. *)
Theorem js_compiles_in_one_call (self : manager) (kw : kwargs) (w : world) :
  (forall p, In p (static_paths self) -> os_path_isfile p = true) ->
  spawned (snd (js_do_compile self kw w)) = (spawned w ++ [(js_cmd self, None)])%list /\
  fst (js_do_compile self kw w) = outcome (js_cmd self) (popen (js_cmd self) None).
Proof.
  intros Hfiles. unfold js_do_compile.
  rewrite (bind_returns _ _ _ _ _ (get_paths_returns self w Hfiles)).
  fold (js_cmd self). split.
  - apply run_proc_spawns_once.
  - apply run_proc_outcome.
Qed.

(** X5. Fail fast: when a declared asset is not a file, the JS compiler, the
    LESS compiler and the CSS compiler without pre-supplied text raise
    [DependencyError] listing the missing paths, and leave the world as it
    was: no process spawned, nothing logged. *)
Theorem missing_asset_fails_before_spawning (self : manager) (kw : kwargs)
    (w : world) (p : string) :
  kind self = JSCompiler \/ kind self = LessCompiler \/
  (kind self = CSSCompiler /\ css_input kw = None) ->
  In p (static_paths self) ->
  os_path_isfile p = false ->
  do_compile self kw w =
    (inl (DependencyError (src_path self) (String.concat "," (missing_paths self))), w).
Proof.
  intros Hkind Hin Hp. pose proof (get_paths_raises self w p Hin Hp) as Hraise.
  unfold do_compile. destruct Hkind as [-> | [-> | [-> Hnone]]].
  - unfold js_do_compile. now rewrite (bind_raises _ _ _ _ _ Hraise).
  - unfold less_do_compile. now rewrite (bind_raises _ _ _ _ _ Hraise).
  - unfold css_do_compile. rewrite Hnone.
    assert (Hinner : bind (get_paths self)
                       (fun paths => bind (mapM open_read paths)
                                       (fun texts => ret (String.concat nl texts))) w
                     = (inl (DependencyError (src_path self)
                               (String.concat "," (missing_paths self))), w))
      by now rewrite (bind_raises _ _ _ _ _ Hraise).
    now rewrite (bind_raises _ _ _ _ _ Hinner).
Qed.

End Pipeline.

Section Quiet.
Context {E : Env}.

Lemma spawns_nothing_bind {A B} (m : M A) (k : A -> M B) :
  spawns_nothing m -> (forall a, spawns_nothing (k a)) -> spawns_nothing (bind m k).
Proof.
  intros Hm Hk w. unfold bind. specialize (Hm w).
  destruct (m w) as [[e | a] w1]; cbn [snd] in *; [exact Hm |].
  now rewrite (Hk a w1).
Qed.

Lemma spawns_nothing_ret {A} (a : A) : spawns_nothing (ret a).
Proof. intros w. reflexivity. Qed.

Lemma spawns_nothing_raise {A} (e : exn) : spawns_nothing (@raise A e).
Proof. intros w. reflexivity. Qed.

Lemma spawns_nothing_logging l f a : spawns_nothing (logging l f a).
Proof. intros w. reflexivity. Qed.

Lemma open_read_quiet (p : string) : spawns_nothing (open_read p).
Proof.
  unfold open_read. destruct (fs !! p) as [[c |] |];
    [apply spawns_nothing_ret | apply spawns_nothing_raise | apply spawns_nothing_raise].
Qed.

Lemma replacer_quiet (self : manager) (m : rematch) seen :
  spawns_nothing (replacer self m seen).
Proof.
  unfold replacer.
  destruct (negb _); [apply spawns_nothing_raise |].
  destruct (_ >? _).
  - apply spawns_nothing_bind; [apply spawns_nothing_logging | intros _; apply spawns_nothing_ret].
  - apply spawns_nothing_bind; [apply open_read_quiet |].
    intros content. destruct (_ >=? _).
    + apply spawns_nothing_bind;
        [apply spawns_nothing_logging | intros _; apply spawns_nothing_ret].
    + apply spawns_nothing_ret.
Qed.

Lemma re_sub_quiet (self : manager) (ps : list piece) :
  forall seen, spawns_nothing (re_sub self ps seen).
Proof.
  induction ps as [| [s | m] ps IH]; intros seen; cbn [re_sub].
  - apply spawns_nothing_ret.
  - apply spawns_nothing_bind; [apply IH | intros r; apply spawns_nothing_ret].
  - apply spawns_nothing_bind; [apply replacer_quiet |].
    intros x. apply spawns_nothing_bind; [apply IH | intros r; apply spawns_nothing_ret].
Qed.

Lemma warn_duplicates_quiet (items : list (string * Z)) :
  spawns_nothing (warn_duplicates items).
Proof.
  induction items as [| [url count] items IH]; cbn [warn_duplicates].
  - apply spawns_nothing_ret.
  - apply spawns_nothing_bind; [| intros _; exact IH].
    destruct (count >? 1); [apply spawns_nothing_logging | apply spawns_nothing_ret].
Qed.

Lemma inline_images_quiet (self : manager) (css : string) :
  spawns_nothing (inline_images self css).
Proof.
  unfold inline_images. apply spawns_nothing_bind; [apply re_sub_quiet |].
  intros r. apply spawns_nothing_bind; [apply warn_duplicates_quiet |].
  intros _. apply spawns_nothing_ret.
Qed.

Lemma inline_images_asserts (self : manager) (css : string) (w : world) (m : rematch) :
  In (Hit m) (static_url_scan (static_url_prefix (settings self)) css) ->
  os_path_isfile (match_path m) = false ->
  exists payload w',
    inline_images self css w = (inl (AssertionError payload), w').
Proof.
  intros Hin Hmiss.
  destruct (re_sub_asserts self _ m Hin Hmiss ∅ w) as (m' & w' & _ & _ & Hrun).
  eexists _, w'. unfold inline_images. now rewrite (bind_raises _ _ _ _ _ Hrun).
Qed.

(** X7. The CSS stage over text whose matches all refer to files: the
    inliner spawns nothing, and the YUI compressor is then run once on the
    inlined text, which follows the size policy piece by piece. *)
Theorem css_minifies_inlined_text (self : manager) (css : string) (w : world) :
  (forall m, In (Hit m) (static_url_scan (static_url_prefix (settings self)) css) ->
             os_path_isfile (match_path m) = true) ->
  exists outs w1,
    Forall2 threshold_rule (static_url_scan (static_url_prefix (settings self)) css) outs /\
    spawned w1 = spawned w /\
    css_do_compile self (Kwargs (Some css) false) w =
      run_proc (yui_cmd self) (Some (glue outs)) w1.
Proof.
  intros Hfiles.
  destruct (inline_images_files self css w Hfiles) as (outs & w1 & Hrun & Hsp & Hrule).
  exists outs, w1. split; [exact Hrule | split; [exact Hsp |]].
  unfold css_do_compile. cbn [css_input skip_inline_images negb].
  rewrite bind_ret. now rewrite (bind_returns _ _ _ _ _ Hrun).
Qed.

(** X8. A reference to a file that does not exist stops the CSS stage before
    the compressor: the call raises the [AssertionError] of the inliner and
    no process has been spawned. *)
Theorem css_missing_image_spawns_nothing (self : manager) (css : string)
    (w : world) (m : rematch) :
  In (Hit m) (static_url_scan (static_url_prefix (settings self)) css) ->
  os_path_isfile (match_path m) = false ->
  exists payload w',
    css_do_compile self (Kwargs (Some css) false) w = (inl (AssertionError payload), w') /\
    spawned w' = spawned w.
Proof.
  intros Hin Hmiss.
  destruct (inline_images_asserts self css w m Hin Hmiss) as (payload & w' & Hrun).
  exists payload, w'. split.
  - unfold css_do_compile. cbn [css_input skip_inline_images negb].
    rewrite bind_ret. now rewrite (bind_raises _ _ _ _ _ Hrun).
  - pose proof (inline_images_quiet self css w) as Hq. now rewrite Hrun in Hq.
Qed.
End Quiet.

Section Transpilers.
Context {E : Env}.

Lemma lessc_stops (self : manager) (done : list string) (p : string) (rest : list string) :
  (forall q, In q done -> returncode (popen (lessc_cmd self q) None) = 0) ->
  returncode (popen (lessc_cmd self p) None) <> 0 ->
  forall w, exists w',
    mapM (fun path => run_proc [lessc_path (settings self); path] None)
         (done ++ p :: rest) w
    = (inl (CompileError (lessc_cmd self p) (err (popen (lessc_cmd self p) None))), w') /\
    spawned w' = (spawned w ++ map (fun q => (lessc_cmd self q, None)) (done ++ [p]))%list.
Proof.
  intros Hdone Hp. induction done as [| q done IH]; intros w.
  - eexists. cbn [app mapM map].
    rewrite (bind_raises _ _ _ _ _ (run_proc_nonzero (lessc_cmd self p) None w Hp)).
    split; reflexivity.
  - assert (Hq : returncode (popen (lessc_cmd self q) None) = 0)
      by (apply Hdone; now left).
    pose proof (run_proc_zero (lessc_cmd self q) None w Hq) as Hrun.
    destruct (IH (fun x Hx => Hdone x (or_intror Hx)) (snd (run_proc (lessc_cmd self q) None w)))
      as (w' & Hrest & Hsp).
    exists w'. split.
    + cbn [app mapM]. rewrite (bind_returns _ _ _ _ _ Hrun).
      rewrite Hrun in Hrest. cbn [snd] in Hrest.
      now rewrite (bind_raises _ _ _ _ _ Hrest).
    + rewrite Hsp, (run_proc_spawns_once (lessc_cmd self q) None w).
      cbn [app map]. now rewrite <- app_assoc.
Qed.

(** X9. LESS compilation stops at the first file [lessc] fails on: the
    files before it have been transpiled, the failing call is the last
    process spawned, the CSS stage is never reached, and the call raises
    [CompileError] with that command and its standard error. *)
Theorem less_stops_at_first_failure (self : manager) (kw : kwargs) (w : world)
    (done : list string) (p : string) (rest : list string) :
  (forall q, In q (static_paths self) -> os_path_isfile q = true) ->
  static_paths self = (done ++ p :: rest)%list ->
  (forall q, In q done -> returncode (popen (lessc_cmd self q) None) = 0) ->
  returncode (popen (lessc_cmd self p) None) <> 0 ->
  exists w',
    less_do_compile self kw w
    = (inl (CompileError (lessc_cmd self p) (err (popen (lessc_cmd self p) None))), w') /\
    spawned w' = (spawned w ++ map (fun q => (lessc_cmd self q, None)) (done ++ [p]))%list.
Proof.
  intros Hfiles Hsplit Hdone Hp.
  destruct (lessc_stops self done p rest Hdone Hp w) as (w' & Hrun & Hsp).
  exists w'. split; [| exact Hsp].
  unfold less_do_compile.
  rewrite (bind_returns _ _ _ _ _ (get_paths_returns self w Hfiles)), Hsplit.
  now rewrite (bind_raises _ _ _ _ _ Hrun).
Qed.

(** X10. SASS compilation calls its transpiler once: when the call exits
    with status 0 its standard output goes to the CSS stage as pre-supplied
    text, with that one process spawned so far; when it exits with another
    status the call raises [CompileError] and the CSS stage is not reached. *)
Theorem sass_transpiles_once (self : manager) (kw : kwargs) (w : world) :
  (returncode (popen (sass_cmd self) None) = 0 ->
   exists w1,
     spawned w1 = (spawned w ++ [(sass_cmd self, None)])%list /\
     sass_do_compile self kw w =
       css_do_compile self (Kwargs (Some (out (popen (sass_cmd self) None))) false) w1)
  /\
  (returncode (popen (sass_cmd self) None) <> 0 ->
   sass_do_compile self kw w =
     (inl (CompileError (sass_cmd self) (err (popen (sass_cmd self) None))),
      World (logged w) (spawned w ++ [(sass_cmd self, None)]))).
Proof.
  unfold sass_do_compile. fold (sass_cmd self). split; intros Hrc.
  - eexists. split; [| now rewrite (bind_returns _ _ _ _ _ (run_proc_zero _ None w Hrc))].
    reflexivity.
  - now rewrite (bind_raises _ _ _ _ _ (run_proc_nonzero _ None w Hrc)).
Qed.

(** X11. [skip_inline_images] does not reach the CSS stage of the LESS
    compiler, which calls it with [css_input] alone: with the flag set, the
    transpiled text still goes through the image inliner before the
    compressor, whereas the CSS compiler with the flag set pipes its text to
    the compressor as it is. *)
Theorem less_inlines_despite_skip (self : manager) (given : option string) (w : world) :
  (forall p, In p (static_paths self) -> os_path_isfile p = true) ->
  (forall p, In p (static_paths self) ->
             returncode (popen (lessc_cmd self p) None) = 0) ->
  (exists w1,
     spawned w1 = (spawned w ++ map (fun p => (lessc_cmd self p, None)) (static_paths self))%list /\
     less_do_compile self (Kwargs given true) w =
       bind (inline_images self (String.concat nl (map (transpile self) (static_paths self))))
            (fun css => run_proc (yui_cmd self) (Some css)) w1)
  /\
  (forall css, css_do_compile self (Kwargs (Some css) true) w
               = run_proc (yui_cmd self) (Some css) w).
Proof.
  intros Hfiles Hrc. split.
  - destruct (lessc_each_file self (static_paths self) Hrc w) as (w1 & Hrun & Hsp).
    exists w1. split; [exact Hsp |].
    unfold less_do_compile.
    rewrite (bind_returns _ _ _ _ _ (get_paths_returns self w Hfiles)).
    rewrite (bind_returns _ _ _ _ _ Hrun).
    unfold css_do_compile. cbn [css_input skip_inline_images negb].
    now rewrite bind_ret.
  - intros css. reflexivity.
Qed.

(** X12. A block without assets: [get_paths] returns the empty list, the
    content hash is the MD5 digest of the empty text, the Closure command
    carries no [--js] flag, and the LESS compiler hands the empty text to the
    CSS stage as pre-supplied input (so that stage reads no file either). *)
Theorem empty_block (self : manager) (mf : manifest) (kw : kwargs) (w : world) :
  rel_urls self = [] ->
  get_paths self w = (inr [], w) /\
  get_current_content_hash self mf w = (inr "d41d8cd98f00b204e9800998ecf8427e", w) /\
  js_do_compile self kw w =
    run_proc ["java"; "-jar"; closure_compiler (settings self);
              "--compilation_level"; "SIMPLE_OPTIMIZATIONS"] None w /\
  less_do_compile self kw w = css_do_compile self (Kwargs (Some "") false) w.
Proof.
  intros Hnone.
  assert (Hpaths : get_paths self w = (inr [], w))
    by (unfold get_paths; now rewrite Hnone).
  split; [exact Hpaths |]. split; [| split].
  - unfold get_current_content_hash.
    rewrite (bind_returns _ _ _ _ _ Hpaths). cbn [hash_paths].
    rewrite bind_ret. vm_compute. reflexivity.
  - unfold js_do_compile. now rewrite (bind_returns _ _ _ _ _ Hpaths).
  - unfold less_do_compile. now rewrite (bind_returns _ _ _ _ _ Hpaths).
Qed.
End Transpilers.

Section Logging.
Context {E : Env}.

Lemma log_blind_ret {A} (a : A) : log_blind (ret a).
Proof. intros s. exists (inr a), [], s. intros l. unfold ret. now rewrite app_nil_r. Qed.

Lemma log_blind_raise {A} (e : exn) : log_blind (@raise A e).
Proof. intros s. exists (inl e), [], s. intros l. unfold raise. now rewrite app_nil_r. Qed.

Lemma log_blind_logging lv f a : log_blind (logging lv f a).
Proof. intros s. exists (inr tt), [LogRecord lv f a], s. intros l. reflexivity. Qed.

Lemma log_blind_communicate (cmd : list string) (stdin : option string) :
  log_blind (communicate cmd stdin).
Proof.
  intros s. exists (inr (popen cmd stdin)), [], (s ++ [(cmd, stdin)])%list.
  intros l. unfold communicate. cbn. now rewrite app_nil_r.
Qed.

Lemma log_blind_bind {A B} (m : M A) (k : A -> M B) :
  log_blind m -> (forall a, log_blind (k a)) -> log_blind (bind m k).
Proof.
  intros Hm Hk s. destruct (Hm s) as ([e | a] & new & s' & Hrun).
  - exists (inl e), new, s'. intros l. unfold bind. now rewrite Hrun.
  - destruct (Hk a s') as (r2 & new2 & s'' & Hrun2).
    exists r2, (new ++ new2)%list, s''. intros l. unfold bind.
    now rewrite Hrun, Hrun2, app_assoc.
Qed.

Lemma log_blind_mapM {A B} (f : A -> M B) (l : list A) :
  (forall a, log_blind (f a)) -> log_blind (mapM f l).
Proof.
  intros Hf. induction l as [| x l IH]; cbn [mapM].
  - apply log_blind_ret.
  - apply log_blind_bind; [apply Hf |]. intros y.
    apply log_blind_bind; [exact IH | intros ys; apply log_blind_ret].
Qed.

Lemma run_proc_log_blind (cmd : list string) (stdin : option string) :
  log_blind (run_proc cmd stdin).
Proof.
  unfold run_proc. apply log_blind_bind; [apply log_blind_communicate |].
  intros p. destruct (negb _); [apply log_blind_raise |].
  apply log_blind_bind; [| intros _; apply log_blind_ret].
  destruct (truthy _); [apply log_blind_logging | apply log_blind_ret].
Qed.

Lemma get_paths_log_blind (self : manager) : log_blind (get_paths self).
Proof.
  unfold get_paths. destruct (forallb _ _); [apply log_blind_ret | apply log_blind_raise].
Qed.

Lemma open_read_log_blind (p : string) : log_blind (open_read p).
Proof.
  unfold open_read. destruct (fs !! p) as [[c |] |];
    [apply log_blind_ret | apply log_blind_raise | apply log_blind_raise].
Qed.

Lemma replacer_log_blind (self : manager) (m : rematch) seen :
  log_blind (replacer self m seen).
Proof.
  unfold replacer.
  destruct (negb _); [apply log_blind_raise |].
  destruct (_ >? _).
  - apply log_blind_bind; [apply log_blind_logging | intros _; apply log_blind_ret].
  - apply log_blind_bind; [apply open_read_log_blind |].
    intros content. destruct (_ >=? _).
    + apply log_blind_bind; [apply log_blind_logging | intros _; apply log_blind_ret].
    + apply log_blind_ret.
Qed.

Lemma re_sub_log_blind (self : manager) (ps : list piece) :
  forall seen, log_blind (re_sub self ps seen).
Proof.
  induction ps as [| [s | m] ps IH]; intros seen; cbn [re_sub].
  - apply log_blind_ret.
  - apply log_blind_bind; [apply IH | intros r; apply log_blind_ret].
  - apply log_blind_bind; [apply replacer_log_blind |].
    intros x. apply log_blind_bind; [apply IH | intros r; apply log_blind_ret].
Qed.

Lemma warn_duplicates_log_blind (items : list (string * Z)) :
  log_blind (warn_duplicates items).
Proof.
  induction items as [| [url count] items IH]; cbn [warn_duplicates].
  - apply log_blind_ret.
  - apply log_blind_bind; [| intros _; exact IH].
    destruct (count >? 1); [apply log_blind_logging | apply log_blind_ret].
Qed.

Lemma inline_images_log_blind (self : manager) (css : string) :
  log_blind (inline_images self css).
Proof.
  unfold inline_images. apply log_blind_bind; [apply re_sub_log_blind |].
  intros r. apply log_blind_bind; [apply warn_duplicates_log_blind |].
  intros _. apply log_blind_ret.
Qed.

Lemma css_do_compile_log_blind (self : manager) (kw : kwargs) :
  log_blind (css_do_compile self kw).
Proof.
  unfold css_do_compile. apply log_blind_bind.
  - destruct (css_input kw); [apply log_blind_ret |].
    apply log_blind_bind; [apply get_paths_log_blind |]. intros paths.
    apply log_blind_bind; [| intros texts; apply log_blind_ret].
    apply log_blind_mapM. apply open_read_log_blind.
  - intros css. apply log_blind_bind; [| intros css'; apply run_proc_log_blind].
    destruct (negb _); [apply inline_images_log_blind | apply log_blind_ret].
Qed.

Lemma do_compile_log_blind (self : manager) (kw : kwargs) :
  log_blind (do_compile self kw).
Proof.
  unfold do_compile. destruct (kind self).
  - apply log_blind_raise.
  - unfold js_do_compile. apply log_blind_bind; [apply get_paths_log_blind |].
    intros paths. apply run_proc_log_blind.
  - apply css_do_compile_log_blind.
  - unfold less_do_compile. apply log_blind_bind; [apply get_paths_log_blind |].
    intros paths. apply log_blind_bind; [| intros outputs; apply css_do_compile_log_blind].
    apply log_blind_mapM. intros path. apply run_proc_log_blind.
  - unfold sass_do_compile. apply log_blind_bind; [apply run_proc_log_blind |].
    intros output. apply css_do_compile_log_blind.
Qed.

(** X13. [compile] is [do_compile] behind one log record: for every kind of
    compiler, it returns or raises what [do_compile] does, spawns the same
    processes, and logs the same records after one "Compiling" record at
    INFO level; the manifest argument plays no part. *)
Theorem compile_logs_then_compiles (self : manager) (mf : manifest) (kw : kwargs)
    (w : world) :
  exists r new s',
    do_compile self kw w = (r, World (logged w ++ new) s') /\
    compile self mf kw w = (r, World (logged w ++ compiling_record self :: new) s').
Proof.
  destruct (do_compile_log_blind self kw (spawned w)) as (r & new & s' & Hrun).
  exists r, new, s'. split.
  - destruct w as [l s]. exact (Hrun l).
  - change (compile self mf kw w)
      with (do_compile self kw
              (World (logged w ++ [compiling_record self]) (spawned w))).
    rewrite (Hrun (logged w ++ [compiling_record self])%list).
    now rewrite <- app_assoc.
Qed.
End Logging.

Section Sizes.
Context {E : Env}.

Lemma string_length_app (a b : string) :
  String.length (a +:+ b) = (String.length a + String.length b)%nat.
Proof.
  induction a as [| c a IH]; [reflexivity |].
  change (S (String.length (a +:+ b)) = S (String.length a + String.length b)).
  now rewrite IH.
Qed.

Lemma string_of_list_ascii_length (l : list ascii) :
  String.length (string_of_list_ascii l) = length l.
Proof. induction l as [| c l IH]; [reflexivity |]. cbn. now rewrite IH. Qed.

Lemma list_ascii_of_string_length (s : string) :
  length (list_ascii_of_string s) = String.length s.
Proof. induction s as [| c s IH]; [reflexivity |]. cbn. now rewrite IH. Qed.

Lemma b64_bytes_length_by_three (l : list Z) :
  length (b64_bytes l) = (4 * ((length l + 2) / 3))%nat /\
  (forall a, length (b64_bytes (a :: l)) = (4 * ((length (a :: l) + 2) / 3))%nat) /\
  (forall a b, length (b64_bytes (a :: b :: l)) = (4 * ((length (a :: b :: l) + 2) / 3))%nat).
Proof.
  induction l as [| c r (IH0 & IH1 & IH2)].
  - repeat split; intros; reflexivity.
  - split; [apply IH1 | split; [intros a; apply IH2 |]].
    intros a b. cbn [b64_bytes length]. rewrite IH0.
    replace (S (S (S (length r))) + 2)%nat with ((length r + 2) + 1 * 3)%nat by lia.
    rewrite Nat.div_add by discriminate. lia.
Qed.

(** The payload has four characters for every three bytes, rounded up. *)
Lemma b64encode_length (s : string) :
  String.length (b64encode s) = (4 * ((String.length s + 2) / 3))%nat.
Proof.
  unfold b64encode, bytes_of_string.
  rewrite string_of_list_ascii_length, (proj1 (b64_bytes_length_by_three _)).
  now rewrite length_map, list_ascii_of_string_length.
Qed.

Lemma data_uri_of_length (path content : string) :
  Z.of_nat (String.length (data_uri_of path content))
  = 13 + Z.of_nat (String.length (percent_s (guess_type path)))
    + 4 * ((Z.of_nat (String.length content) + 2) / 3).
Proof.
  unfold data_uri_of, make_data_uri.
  rewrite !string_length_app, b64encode_length.
  change (String.length "data:") with 5%nat.
  change (String.length ";base64,") with 8%nat.
  rewrite !Nat2Z.inj_add, Nat2Z.inj_mul, Nat2Z.inj_div, Nat2Z.inj_add.
  cbn [Z.of_nat]. lia.
Qed.

(** What the closure does on an existing file, in full. *)
Lemma replacer_decides (self : manager) (m : rematch) seen (w : world) content :
  fs !! match_path m = Some (File content) ->
  replacer self m seen w =
    if Z.of_nat (String.length content) >? MAX_FILE_SIZE then
      (inr (group0 m, seen),
       World (logged w ++ [LogRecord DEBUG "Not inlining %s (%.2fKB)"
                             [VStr (match_path m);
                              VKB (Z.of_nat (String.length content))]])
             (spawned w))
    else if Z.of_nat (String.length (data_uri_of (match_path m) content))
            >=? MAX_DATA_URI_SIZE then
      (inr (group0 m, seen),
       World (logged w ++ [LogRecord DEBUG "Not inlining %s (%.2fKB encoded)"
                             [VStr (match_path m);
                              VKB (Z.of_nat (String.length
                                               (data_uri_of (match_path m) content)))]])
             (spawned w))
    else
      (inr (before m +:+ data_uri_of (match_path m) content +:+ after m,
            bump (asset_key m) seen), w).
Proof.
  intros Hc. unfold replacer. fold (match_path m).
  unfold os_path_isfile, st_size, open_read. rewrite Hc. cbn [negb].
  destruct (_ >? _); [reflexivity |].
  rewrite bind_ret. fold (data_uri_of (match_path m) content).
  destruct (_ >=? _); reflexivity.
Qed.

(** X14. The size tests in numbers: on an existing file of [n] bytes whose
    type prints as [t], the data URI has [13 + len t + 4 * ceil (n / 3)]
    characters; the match is replaced, and counted in [seen_assets], when
    [n <= 24576] and that length is below 32768, and returned as it was
    otherwise. *)
Theorem inlining_by_size_formula (self : manager) (m : rematch) seen (w : world)
    (content : string) :
  fs !! match_path m = Some (File content) ->
  let n := Z.of_nat (String.length content) in
  let uri_len := 13 + Z.of_nat (String.length (percent_s (guess_type (match_path m))))
                 + 4 * ((n + 2) / 3) in
  (n <= 24576 /\ uri_len < 32768 ->
   replacer self m seen w
   = (inr (before m +:+ data_uri_of (match_path m) content +:+ after m,
           bump (asset_key m) seen), w))
  /\
  (n > 24576 \/ uri_len >= 32768 ->
   exists w', replacer self m seen w = (inr (group0 m, seen), w') /\
              spawned w' = spawned w).
Proof.
  intros Hc n uri_len.
  rewrite (replacer_decides self m seen w content Hc).
  pose proof (data_uri_of_length (match_path m) content) as Hlen.
  fold n in Hlen. fold uri_len in Hlen. fold n. rewrite Hlen.
  unfold MAX_FILE_SIZE, MAX_DATA_URI_SIZE, KB.
  destruct (Z.gtb_spec n (24 * 1024)) as [Hbig | Hsmall];
    [| destruct (Z.geb_spec uri_len (32 * 1024)) as [Hlong | Hshort]].
  - split; [lia |]. intros _. eexists. split; reflexivity.
  - split; [lia |]. intros _. eexists. split; reflexivity.
  - split; [reflexivity | lia].
Qed.

(** X15. The limit on the data URI decides before the limit on the file: a
    file of 24565 bytes or more is never inlined, whatever its type, since
    its payload alone brings the URI to 32 KiB; the match is returned as it
    was and nothing is counted. *)
Theorem large_files_never_inlined (self : manager) (m : rematch) seen (w : world)
    (content : string) :
  fs !! match_path m = Some (File content) ->
  24565 <= Z.of_nat (String.length content) ->
  exists w', replacer self m seen w = (inr (group0 m, seen), w') /\
             spawned w' = spawned w.
Proof.
  intros Hc Hsize.
  rewrite (replacer_decides self m seen w content Hc).
  pose proof (data_uri_of_length (match_path m) content) as Hlen.
  assert (Hpayload : 8189 <= (Z.of_nat (String.length content) + 2) / 3)
    by (apply Z.div_le_lower_bound; lia).
  unfold MAX_FILE_SIZE, MAX_DATA_URI_SIZE, KB.
  destruct (_ >? _); [eexists; split; reflexivity |].
  destruct (Z.geb_spec (Z.of_nat (String.length (data_uri_of (match_path m) content)))
                       (32 * 1024)) as [Hlong | Hshort].
  - eexists; split; reflexivity.
  - exfalso. lia.
Qed.
End Sizes.

Section Duplicates.
Context {E : Env}.

Lemma bump_lookup (key k : string) (seen : gmap string Z) :
  default 0 (bump key seen !! k)
  = default 0 (seen !! k) + (if String.eqb key k then 1 else 0).
Proof.
  unfold bump. destruct (String.eqb_spec key k) as [-> | Hne].
  - now rewrite lookup_insert_eq.
  - rewrite lookup_insert_ne by exact Hne. lia.
Qed.

(** On an existing file the closure returns, logs debug records only, and
    counts the match exactly when it inlines it. *)
Lemma replacer_counts (self : manager) (m : rematch) seen (w : world) content :
  fs !! match_path m = Some (File content) ->
  exists o debugs,
    replacer self m seen w
    = (inr (o, if inlines m then bump (asset_key m) seen else seen),
       World (logged w ++ debugs) (spawned w)) /\
    Forall is_debug debugs.
Proof.
  intros Hc. rewrite (replacer_decides self m seen w content Hc).
  unfold inlines. rewrite Hc.
  destruct (_ >? _); cbn [negb andb].
  - eexists _, [_]. split; [reflexivity |]. repeat constructor.
  - destruct (_ >=? _); cbn [negb].
    + eexists _, [_]. split; [reflexivity |]. repeat constructor.
    + eexists _, []. rewrite app_nil_r. destruct w. split; [reflexivity | constructor].
Qed.

Lemma re_sub_counts (self : manager) (ps : list piece) :
  (forall m, In (Hit m) ps -> os_path_isfile (match_path m) = true) ->
  forall seen w, exists o seen' debugs,
    re_sub self ps seen w = (inr (o, seen'), World (logged w ++ debugs) (spawned w)) /\
    Forall is_debug debugs /\
    (forall k, default 0 (seen' !! k) = default 0 (seen !! k) + inlined_count k ps).
Proof.
  induction ps as [| [s | m] ps IH]; intros Hfiles seen w.
  - exists "", seen, []. rewrite app_nil_r. destruct w.
    split; [reflexivity | split; [constructor |]]. intros k. cbn. lia.
  - destruct (IH (fun m Hm => Hfiles m (or_intror Hm)) seen w)
      as (o & seen' & debugs & Hrun & Hdebug & Hcount).
    exists (s +:+ o), seen', debugs. split; [| split; [exact Hdebug | exact Hcount]].
    cbn [re_sub]. now rewrite (bind_returns _ _ _ _ _ Hrun).
  - destruct (isfile_content _ (Hfiles m (or_introl eq_refl))) as (content & Hc).
    destruct (replacer_counts self m seen w content Hc) as (o1 & debugs1 & Hrep & Hd1).
    destruct (IH (fun m' Hm => Hfiles m' (or_intror Hm))
                 (if inlines m then bump (asset_key m) seen else seen)
                 (World (logged w ++ debugs1) (spawned w)))
      as (o & seen' & debugs & Hrun & Hdebug & Hcount).
    exists (o1 +:+ o), seen', (debugs1 ++ debugs)%list. split; [| split].
    + cbn [re_sub]. rewrite (bind_returns _ _ _ _ _ Hrep). cbn [fst snd].
      rewrite (bind_returns _ _ _ _ _ Hrun). cbn [logged spawned fst snd].
      now rewrite app_assoc.
    + apply Forall_app. split; assumption.
    + intros k. rewrite Hcount. cbn [inlined_count].
      destruct (inlines m); cbn [andb].
      * rewrite bump_lookup. lia.
      * lia.
Qed.

Lemma warn_duplicates_log (items : list (string * Z)) (w : world) :
  warn_duplicates items w
  = (inr tt,
     World (logged w ++ map duplicate_warning
                            (List.filter (fun item => snd item >? 1) items))
           (spawned w)).
Proof.
  revert w. induction items as [| [url count] items IH]; intros w.
  - cbn. rewrite app_nil_r. now destruct w.
  - cbn [warn_duplicates List.filter snd]. destruct (count >? 1).
    + unfold bind, logging. rewrite IH. cbn [logged spawned map].
      now rewrite <- app_assoc.
    + rewrite bind_ret. apply IH.
Qed.

Lemma NoDup_fst_filter {A B} (f : A * B -> bool) (l : list (A * B)) :
  NoDup (map fst l) -> NoDup (map fst (List.filter f l)).
Proof.
  induction l as [| x l IH]; intros Hnd; [constructor |].
  cbn [map] in Hnd. apply NoDup_cons in Hnd as [Hx Hl].
  cbn [List.filter]. destruct (f x); [| exact (IH Hl)].
  cbn [map]. apply NoDup_cons. split; [| exact (IH Hl)].
  intros Hin. apply Hx.
  apply list_elem_of_In in Hin. apply list_elem_of_In.
  apply in_map_iff in Hin as (y & Hy & Hyin). apply filter_In in Hyin as [Hyin _].
  apply in_map_iff. now exists y.
Qed.

(** X16. Duplicate warnings: over a subject whose matches all refer to
    files, the pass returns; what it logs is debug records (the matches it
    skipped) followed by one warning per asset inlined more than once, each
    carrying the number of times that asset was inlined; no asset is warned
    about twice, and an asset inlined once or never is not warned about. *)
Theorem inline_images_duplicate_warnings (self : manager) (css : string) (w : world) :
  (forall m, In (Hit m) (static_url_scan (static_url_prefix (settings self)) css) ->
             os_path_isfile (match_path m) = true) ->
  exists result debugs warned,
    inline_images self css w
    = (inr result,
       World (logged w ++ debugs ++ map duplicate_warning warned) (spawned w)) /\
    Forall is_debug debugs /\
    NoDup (map fst warned) /\
    (forall url count,
        In (url, count) warned <->
        count = inlined_count url
                  (static_url_scan (static_url_prefix (settings self)) css) /\
        count > 1).
Proof.
  intros Hfiles.
  destruct (re_sub_counts self _ Hfiles ∅ w)
    as (o & seen' & debugs & Hrun & Hdebug & Hcount).
  exists o, debugs, (List.filter (fun item => snd item >? 1) (map_to_list seen')).
  split; [| split; [exact Hdebug | split]].
  - unfold inline_images. rewrite (bind_returns _ _ _ _ _ Hrun). cbn [fst snd].
    unfold bind. rewrite warn_duplicates_log. cbn [logged spawned].
    now rewrite <- app_assoc.
  - apply NoDup_fst_filter. exact (NoDup_fst_map_to_list seen').
  - intros url count. rewrite filter_In. cbn [snd].
    rewrite <- list_elem_of_In, elem_of_map_to_list.
    specialize (Hcount url). rewrite lookup_empty in Hcount.
    split.
    + intros [Hlook Hgt]. rewrite Hlook in Hcount.
      cbv [default from_option id] in Hcount.
      apply Z.gtb_lt in Hgt. lia.
    + intros [-> Hgt].
      destruct (seen' !! url) as [c |] eqn:Hlook; cbv [default from_option id] in Hcount.
      * split; [f_equal; lia | apply Z.gtb_lt; lia].
      * lia.
Qed.
End Duplicates.

(** * The further properties on the sample environment *)

Section MoreSamples.
#[local] Existing Instance sample_env.

Lemma needs_compile_diagnostics_sample :
  blocks sample_manifest !! get_hash sample_css = Some (Entry "0123abcd") /\
  exists b w',
    needs_compile sample_css (Manifest ∅ ∅) sample_manifest w0 = (inr b, w') /\
    spawned w' = spawned w0 /\
    (b = false -> logged w' = logged w0) /\
    (b = true ->
     (blocks (Manifest ∅ ∅) !! get_hash sample_css = None /\
      logged w' = (logged w0 ++ [warns_unknown sample_css])%list) \/
     (exists old, blocks (Manifest ∅ ∅) !! get_hash sample_css = Some old /\
                  version old <> version (Entry "0123abcd") /\
                  logged w' = (logged w0 ++ [warns_changed sample_css])%list) \/
     (exists old, blocks (Manifest ∅ ∅) !! get_hash sample_css = Some old /\
                  version old = version (Entry "0123abcd") /\
                  os_path_exists (get_compiled_path sample_css) = false /\
                  logged w' = (logged w0 ++ [warns_missing_output sample_css])%list)).
Proof.
  assert (H : blocks sample_manifest !! get_hash sample_css = Some (Entry "0123abcd"))
    by (vm_compute; reflexivity).
  split; [exact H |].
  exact (needs_compile_diagnostics sample_css (Manifest ∅ ∅) sample_manifest w0 _ H).
Defined.

Lemma content_hash_unknown_asset_sample :
  (forall q, In q (static_paths sample_css) -> os_path_isfile q = true) /\
  In "static/site.css" (static_paths sample_css) /\
  assets sample_manifest !! "static/site.css" = None /\
  get_current_content_hash sample_css sample_manifest w0 = (inl (AssertionError []), w0).
Proof.
  assert (H1 : forall q, In q (static_paths sample_css) -> os_path_isfile q = true)
    by each_path.
  assert (H2 : In "static/site.css" (static_paths sample_css)) by (now left).
  assert (H3 : assets sample_manifest !! "static/site.css" = None)
    by (vm_compute; reflexivity).
  split; [exact H1 | split; [exact H2 | split; [exact H3 |]]].
  exact (content_hash_unknown_asset sample_css sample_manifest w0 _ H1 H2 H3).
Defined.

Lemma content_hash_missing_file_sample :
  In "static/missing.less" (static_paths sample_less_missing) /\
  os_path_isfile "static/missing.less" = false /\
  get_current_content_hash sample_less_missing sample_manifest w0 =
    (inl (DependencyError (src_path sample_less_missing)
            (String.concat "," (missing_paths sample_less_missing))), w0).
Proof.
  assert (H1 : In "static/missing.less" (static_paths sample_less_missing)) by (now left).
  assert (H2 : os_path_isfile "static/missing.less" = false) by reflexivity.
  split; [exact H1 | split; [exact H2 |]].
  exact (content_hash_missing_file sample_less_missing sample_manifest w0 _ H1 H2).
Defined.

Lemma js_compiles_in_one_call_sample :
  (forall p, In p (static_paths sample_js) -> os_path_isfile p = true) /\
  spawned (snd (js_do_compile sample_js no_kwargs w0))
  = (spawned w0 ++ [(js_cmd sample_js, None)])%list /\
  fst (js_do_compile sample_js no_kwargs w0)
  = outcome (js_cmd sample_js) (popen (js_cmd sample_js) None).
Proof.
  assert (H : forall p, In p (static_paths sample_js) -> os_path_isfile p = true)
    by each_path.
  split; [exact H | exact (js_compiles_in_one_call sample_js no_kwargs w0 H)].
Defined.

(** The command the sample script block runs. *)
Lemma js_cmd_sample :
  js_cmd sample_js
  = ["java"; "-jar"; "closure.jar"; "--compilation_level"; "SIMPLE_OPTIMIZATIONS";
     "--js"; "static/reset.css"; "--js"; "static/print.css"].
Proof. reflexivity. Qed.

Lemma missing_asset_fails_before_spawning_sample :
  (kind sample_less_missing = JSCompiler \/ kind sample_less_missing = LessCompiler \/
   (kind sample_less_missing = CSSCompiler /\ css_input no_kwargs = None)) /\
  In "static/missing.less" (static_paths sample_less_missing) /\
  os_path_isfile "static/missing.less" = false /\
  do_compile sample_less_missing no_kwargs w0 =
    (inl (DependencyError (src_path sample_less_missing)
            (String.concat "," (missing_paths sample_less_missing))), w0).
Proof.
  assert (H0 : kind sample_less_missing = JSCompiler \/
               kind sample_less_missing = LessCompiler \/
               (kind sample_less_missing = CSSCompiler /\ css_input no_kwargs = None))
    by (right; left; reflexivity).
  assert (H1 : In "static/missing.less" (static_paths sample_less_missing)) by (now left).
  assert (H2 : os_path_isfile "static/missing.less" = false) by reflexivity.
  split; [exact H0 | split; [exact H1 | split; [exact H2 |]]].
  exact (missing_asset_fails_before_spawning sample_less_missing no_kwargs w0 _ H0 H1 H2).
Defined.


Lemma css_minifies_inlined_text_sample :
  (forall m, In (Hit m) (static_url_scan (static_url_prefix (settings sample_css)) css_mixed) ->
             os_path_isfile (match_path m) = true) /\
  exists outs w1,
    Forall2 threshold_rule
            (static_url_scan (static_url_prefix (settings sample_css)) css_mixed) outs /\
    spawned w1 = spawned w0 /\
    css_do_compile sample_css (Kwargs (Some css_mixed) false) w0 =
      run_proc (yui_cmd sample_css) (Some (glue outs)) w1.
Proof.
  assert (H : forall m,
             In (Hit m) (static_url_scan (static_url_prefix (settings sample_css)) css_mixed) ->
             os_path_isfile (match_path m) = true)
    by hits_are_files.
  split; [exact H | exact (css_minifies_inlined_text sample_css css_mixed w0 H)].
Defined.

Lemma css_missing_image_spawns_nothing_sample :
  In (Hit nope_match) (static_url_scan (static_url_prefix (settings sample_css)) css_nope) /\
  os_path_isfile (match_path nope_match) = false /\
  exists payload w',
    css_do_compile sample_css (Kwargs (Some css_nope) false) w0
    = (inl (AssertionError payload), w') /\
    spawned w' = spawned w0.
Proof.
  assert (H1 : In (Hit nope_match)
                  (static_url_scan (static_url_prefix (settings sample_css)) css_nope))
    by (vm_compute; tauto).
  assert (H2 : os_path_isfile (match_path nope_match) = false) by reflexivity.
  split; [exact H1 | split; [exact H2 |]].
  exact (css_missing_image_spawns_nothing sample_css css_nope w0 nope_match H1 H2).
Defined.

Lemma sass_transpiles_once_sample :
  returncode (popen (sass_cmd sample_sass_missing) None) = 0 /\
  exists w1,
    spawned w1 = (spawned w0 ++ [(sass_cmd sample_sass_missing, None)])%list /\
    sass_do_compile sample_sass_missing no_kwargs w0 =
      css_do_compile sample_sass_missing
        (Kwargs (Some (out (popen (sass_cmd sample_sass_missing) None))) false) w1.
Proof.
  assert (H : returncode (popen (sass_cmd sample_sass_missing) None) = 0) by reflexivity.
  split; [exact H |].
  exact (proj1 (sass_transpiles_once sample_sass_missing no_kwargs w0) H).
Defined.

Lemma less_inlines_despite_skip_sample :
  (forall p, In p (static_paths sample_less) -> os_path_isfile p = true) /\
  (forall p, In p (static_paths sample_less) ->
             returncode (popen (lessc_cmd sample_less p) None) = 0) /\
  exists w1,
    spawned w1 = (spawned w0 ++ map (fun p => (lessc_cmd sample_less p, None))
                                    (static_paths sample_less))%list /\
    less_do_compile sample_less (Kwargs None true) w0 =
      bind (inline_images sample_less
              (String.concat nl (map (transpile sample_less) (static_paths sample_less))))
           (fun css => run_proc (yui_cmd sample_less) (Some css)) w1.
Proof.
  assert (H1 : forall p, In p (static_paths sample_less) -> os_path_isfile p = true)
    by each_path.
  assert (H2 : forall p, In p (static_paths sample_less) ->
                         returncode (popen (lessc_cmd sample_less p) None) = 0)
    by each_path.
  split; [exact H1 | split; [exact H2 |]].
  exact (proj1 (less_inlines_despite_skip sample_less None w0 H1 H2)).
Defined.

Lemma empty_block_sample :
  rel_urls sample_empty = [] /\
  get_paths sample_empty w0 = (inr [], w0) /\
  get_current_content_hash sample_empty sample_manifest w0
  = (inr "d41d8cd98f00b204e9800998ecf8427e", w0) /\
  js_do_compile sample_empty no_kwargs w0 =
    run_proc ["java"; "-jar"; closure_compiler (settings sample_empty);
              "--compilation_level"; "SIMPLE_OPTIMIZATIONS"] None w0 /\
  less_do_compile sample_empty no_kwargs w0
  = css_do_compile sample_empty (Kwargs (Some "") false) w0.
Proof.
  assert (H : rel_urls sample_empty = []) by reflexivity.
  split; [exact H | exact (empty_block sample_empty sample_manifest no_kwargs w0 H)].
Defined.

Lemma inlining_by_size_formula_sample :
  fs !! match_path dot_match = Some (File "PNGdata") /\
  (Z.of_nat (String.length "PNGdata") <= 24576 /\
   13 + Z.of_nat (String.length (percent_s (guess_type (match_path dot_match))))
   + 4 * ((Z.of_nat (String.length "PNGdata") + 2) / 3) < 32768) /\
  replacer sample_css dot_match ∅ w0
  = (inr (before dot_match +:+ data_uri_of (match_path dot_match) "PNGdata"
            +:+ after dot_match,
          bump (asset_key dot_match) ∅), w0).
Proof.
  assert (H1 : fs !! match_path dot_match = Some (File "PNGdata"))
    by (vm_compute; reflexivity).
  assert (H2 : Z.of_nat (String.length "PNGdata") <= 24576 /\
               13 + Z.of_nat (String.length (percent_s (guess_type (match_path dot_match))))
               + 4 * ((Z.of_nat (String.length "PNGdata") + 2) / 3) < 32768)
    by (split; vm_compute; congruence).
  split; [exact H1 | split; [exact H2 |]].
  exact (proj1 (inlining_by_size_formula sample_css dot_match ∅ w0 "PNGdata" H1) H2).
Defined.

Lemma large_files_never_inlined_sample :
  fs !! match_path edge_match = Some (File (filler 24576)) /\
  24565 <= Z.of_nat (String.length (filler 24576)) /\
  exists w', replacer sample_css edge_match ∅ w0 = (inr (group0 edge_match, ∅), w') /\
             spawned w' = spawned w0.
Proof.
  assert (H1 : fs !! match_path edge_match = Some (File (filler 24576)))
    by reflexivity.
  assert (H2 : 24565 <= Z.of_nat (String.length (filler 24576)))
    by (vm_compute; congruence).
  split; [exact H1 | split; [exact H2 |]].
  exact (large_files_never_inlined sample_css edge_match ∅ w0 _ H1 H2).
Defined.

Lemma inline_images_duplicate_warnings_sample :
  (forall m, In (Hit m) (static_url_scan (static_url_prefix (settings sample_css)) css_twice) ->
             os_path_isfile (match_path m) = true) /\
  exists result debugs warned,
    inline_images sample_css css_twice w0
    = (inr result,
       World (logged w0 ++ debugs ++ map duplicate_warning warned) (spawned w0)) /\
    Forall is_debug debugs /\
    NoDup (map fst warned) /\
    (forall url count,
        In (url, count) warned <->
        count = inlined_count url
                  (static_url_scan (static_url_prefix (settings sample_css)) css_twice) /\
        count > 1).
Proof.
  assert (H : forall m,
             In (Hit m) (static_url_scan (static_url_prefix (settings sample_css)) css_twice) ->
             os_path_isfile (match_path m) = true)
    by hits_are_files.
  split; [exact H | exact (inline_images_duplicate_warnings sample_css css_twice w0 H)].
Defined.

(** The style sheet that refers to the small image twice: both references
    are inlined and the log holds the one warning, with the count 2. *)
Lemma inline_images_twice_result :
  inline_images sample_css css_twice w0
  = (inr ("a{b:url(data:image/png;base64,UE5HZGF0YQ==)} "
          +:+ "c{d:url('data:image/png;base64,UE5HZGF0YQ==')} "
          +:+ "e{f:url(data:None;base64,Z2x5cGg=)}"),
     World [duplicate_warning ("/s/img/dot.png", 2)] []).
Proof. vm_compute. reflexivity. Qed.
End MoreSamples.

Section StrictSamples.
#[local] Existing Instance strict_env.

Lemma less_stops_at_first_failure_sample :
  (forall q, In q (static_paths sample_less_three) -> os_path_isfile q = true) /\
  static_paths sample_less_three
  = (["static/a.less"] ++ "static/b.less" :: ["static/site.css"])%list /\
  (forall q, In q ["static/a.less"] ->
             returncode (popen (lessc_cmd sample_less_three q) None) = 0) /\
  returncode (popen (lessc_cmd sample_less_three "static/b.less") None) <> 0 /\
  exists w',
    less_do_compile sample_less_three no_kwargs w0
    = (inl (CompileError ["lessc"; "static/b.less"] "ParseError in b.less"), w') /\
    spawned w' = [(["lessc"; "static/a.less"], None); (["lessc"; "static/b.less"], None)].
Proof.
  assert (H1 : forall q, In q (static_paths sample_less_three) -> os_path_isfile q = true)
    by each_path.
  assert (H2 : static_paths sample_less_three
               = (["static/a.less"] ++ "static/b.less" :: ["static/site.css"])%list)
    by reflexivity.
  assert (H3 : forall q, In q ["static/a.less"] ->
                         returncode (popen (lessc_cmd sample_less_three q) None) = 0)
    by each_path.
  assert (H4 : returncode (popen (lessc_cmd sample_less_three "static/b.less") None) <> 0)
    by (vm_compute; discriminate).
  split; [exact H1 | split; [exact H2 | split; [exact H3 | split; [exact H4 |]]]].
  exact (less_stops_at_first_failure sample_less_three no_kwargs w0 _ _ _ H1 H2 H3 H4).
Defined.
End StrictSamples.
